(** * grub-pbkdf2: a shallow embedding of [util/grub-pbkdf2.c]

    The C program reads a password twice, draws a salt from the random
    device, calls the PBKDF2 primitive and prints the credential.  Below,
    its two functions ([hexify] and [main]) are transcribed as Rocq
    functions: buffers are lists of bytes, C integers are [Z] with their
    wrap-around written out, and the calls into libc and into the crypto
    library are operations of a small state-and-exit monad over an explicit
    world, fed by an environment that plays the operating system. *)

From Stdlib Require Import Strings.String Strings.Ascii Strings.Byte.
From Stdlib Require Import DecimalString.
From Stdlib Require Import ZArith List Bool Lia.
Import ListNotations.

Local Open Scope Z_scope.

(** ** Bytes, characters and C strings *)

Definition byte_to_Z (b : byte) : Z := Z.of_N (Byte.to_N b).

(** Conversion of an [int] value to [char]; every value stored by the
    program lies in 0..255, larger ones are reduced modulo 256. *)
Definition byte_of_Z (z : Z) : byte :=
  match Byte.of_N (Z.to_N (z mod 256)) with
  | Some b => b
  | None => x00
  end.

Definition char (s : string) : Z :=
  match s with
  | String a _ => Z.of_N (N_of_ascii a)
  | EmptyString => 0
  end.

Definition nl : string := String (ascii_of_nat 10) EmptyString.

Definition bytes (s : string) : list byte := list_byte_of_string s.

Definition is_nul (b : byte) : bool := Byte.eqb b x00.

(** The bytes of a NUL-terminated string held in a buffer: everything
    before the first NUL. *)
Fixpoint cstr (buf : list byte) : list byte :=
  match buf with
  | [] => []
  | b :: rest => if is_nul b then [] else b :: cstr rest
  end.

Definition strlen (buf : list byte) : Z := Z.of_nat (length (cstr buf)).

(** [strcmp]: the difference of the first pair of differing bytes, 0 when
    both strings end together.  The end of the list counts as the NUL. *)
Fixpoint strcmp (a b : list byte) : Z :=
  match a, b with
  | x :: a', y :: b' =>
      if Byte.eqb x y
      then (if is_nul x then 0 else strcmp a' b')
      else byte_to_Z x - byte_to_Z y
  | x :: _, [] => byte_to_Z x
  | [], y :: _ => - byte_to_Z y
  | [], [] => 0
  end.

(** [memset (buf, 0, n)]. Every call of the program stays inside its buffer. *)
Definition memset (buf : list byte) (n : Z) : list byte :=
  repeat x00 (Nat.min (Z.to_nat n) (length buf)) ++ skipn (Z.to_nat n) buf.

(** [buf[i]] and [buf[i] = v]. *)
Definition load (buf : list byte) (i : Z) : byte := nth (Z.to_nat i) buf x00.

Fixpoint store_nat (buf : list byte) (i : nat) (v : byte) : list byte :=
  match buf, i with
  | [], _ => []
  | _ :: rest, O => v :: rest
  | b :: rest, S i' => b :: store_nat rest i' v
  end.

Definition store (buf : list byte) (i : Z) (v : byte) : list byte :=
  store_nat buf (Z.to_nat i) v.

(** Writing [data] at the start of [buf], the rest of [buf] left as it was. *)
Definition overwrite (buf data : list byte) : list byte :=
  data ++ skipn (length data) buf.

(** ** [hexify] *)

(** The byte at [bin], masked with [0xf0] and shifted right by 4, and masked
    with [0xf]. *)
Definition hi_nibble (b : byte) : Z := Z.shiftr (Z.land (byte_to_Z b) 240) 4.
Definition lo_nibble (b : byte) : Z := Z.land (byte_to_Z b) 15.

(** The two branches of each [if] of [hexify]. *)
Definition hex_digit (v : Z) : byte :=
  if v <? 10 then byte_of_Z (v + char "0") else byte_of_Z (v + char "A" - 10).

(** [hexify (hex, bin, n)]: the bytes written through [hex], the closing NUL
    included.  [while (n--)] is the recursion on [n]; reading past the end
    of [bin] has no defined result ([None]). *)
Fixpoint hexify (bin : list byte) (n : nat) {struct n} : option (list byte) :=
  match n with
  | O => Some [x00]
  | S n' =>
      match bin with
      | [] => None
      | b :: bin' =>
          match hexify bin' n' with
          | Some hex => Some (hex_digit (hi_nibble b) :: hex_digit (lo_nibble b) :: hex)
          | None => None
          end
      end
  end.

(** The decoder of the round-trip law, after the words of the specification
    (the program has none): the digits [0-9A-F] are read in pairs, high
    nibble first. *)
Definition unhex_digit (c : byte) : option Z :=
  let v := byte_to_Z c in
  if (char "0" <=? v) && (v <=? char "9") then Some (v - char "0")
  else if (char "A" <=? v) && (v <=? char "F") then Some (v - char "A" + 10)
  else None.

Fixpoint unhexify (hex : list byte) : option (list byte) :=
  match hex with
  | [] => Some []
  | h :: l :: rest =>
      match unhex_digit h, unhex_digit l, unhexify rest with
      | Some a, Some b, Some bin => Some (byte_of_Z (16 * a + b) :: bin)
      | _, _, _ => None
      end
  | [_] => None
  end.

(** The digits of the encoding, by value: 0 to 9 are '0' to '9', 10 to 15
    are 'A' to 'F'. *)
Definition hex_alphabet : list byte := bytes "0123456789ABCDEF".

Definition digit_of (v : Z) : byte := nth (Z.to_nat v) hex_alphabet x00.

Definition is_hex_digit (c : byte) : bool := existsb (Byte.eqb c) hex_alphabet.

(** The encoding the spec describes: for each byte the digit of its high
    nibble, then the digit of its low nibble. *)
Definition hex_pairs (bin : list byte) : list byte :=
  flat_map (fun b => [digit_of (byte_to_Z b / 16); digit_of (byte_to_Z b mod 16)]) bin.

(** ** C integers *)

(** Conversion to [unsigned int] and to [int] (32 bits). *)
Definition to_uint (z : Z) : Z := z mod 2 ^ 32.
Definition to_int (z : Z) : Z :=
  let u := z mod 2 ^ 32 in if u <? 2 ^ 31 then u else u - 2 ^ 32.

(** The [%d] conversion of [printf]: the argument read as an [int]. *)
Definition fmt_d (z : Z) : string := NilZero.string_of_int (Z.to_int (to_int z)).

(** The [%s] conversion: the string up to its NUL. *)
Definition fmt_s (buf : list byte) : string := string_of_list_byte (cstr buf).

Infix "+++" := String.append (right associativity, at level 60).

(** ** The world the program runs in *)

(** The streams the program names. *)
Inductive file := F_stdin | F_stdout | F_stderr | F_tty | F_random.

(** The heap blocks the program owns, by the variable that points at them. *)
Inductive buffer := Bufhex | Buf | Salt | Salthex | Pass1 | Pass2.

(** A [FILE *] variable: never opened (NULL), open, or closed. *)
Inductive handle := Null | Open | Closed.

Record termios := { c_iflag : Z; c_oflag : Z; c_cflag : Z; c_lflag : Z }.

Definition set_lflag (t : termios) (v : Z) : termios :=
  {| c_iflag := c_iflag t; c_oflag := c_oflag t; c_cflag := c_cflag t; c_lflag := v |}.

(** [ECHO] and [ISIG] of <termios.h>, with their Linux values. *)
Definition ECHO : Z := 8.
Definition ISIG : Z := 1.

Definition echo_on (t : termios) : bool := Z.testbit (c_lflag t) 3.

(** What the program does to the outside, in program order. *)
Inductive event :=
| EvWrite (f : file) (text : string)
| EvMalloc (b : buffer) (size : Z) (ok : bool)
| EvFree (b : buffer) (content : list byte)
| EvFopen (f : file) (ok : bool)
| EvTcgetattr (f : file) (ok : bool)
| EvTcsetattr (f : file) (t : termios) (ok : bool)
| EvGetline (f : file) (line : option (list byte))
| EvFread (f : file) (size : Z) (data : list byte)
| EvFclose (f : file) (h : handle)
| EvPbkdf2 (password salt : list byte) (c buflen : Z) (err : Z).

Record world := {
  w_termios : termios;        (* attributes of the terminal behind fileno (in) *)
  w_stdin : list byte;        (* input of stdin not read yet *)
  w_tty : list byte;          (* input of /dev/tty not read yet *)
  w_random : handle;          (* the stream f of the salt block *)
  w_tcsetattr_calls : nat;    (* calls of tcsetattr so far *)
  w_trace : list event
}.

(** What the operating system, the C library and the crypto library answer. *)
Record env := {
  e_getopt : list (Z * Z);    (* results of getopt_long before -1, each with
                                 strtoul (optarg, NULL, 0); '?' is the result
                                 for an option the library rejects *)
  e_getopt_says : string;     (* the library's wording for that rejection *)
  e_malloc_ok : buffer -> bool;
  e_fresh : buffer -> nat -> byte;     (* what a fresh block happens to hold *)
  e_uninit : termios;                  (* what an unset struct termios holds *)
  e_tty_opens : bool;                  (* fopen ("/dev/tty") *)
  e_tcgetattr_ok : bool;
  e_tcsetattr_ok : nat -> bool;        (* by call number, from 0 *)
  e_termios : termios;                 (* the terminal before the run *)
  e_stdin : list byte;
  e_tty_input : list byte;
  e_getline_room : buffer -> nat;      (* bytes of a line's block past its NUL *)
  e_random_opens : bool;               (* fopen ("/dev/random") *)
  e_random : list byte;                (* what the device delivers *)
  e_pbkdf2 : list byte -> list byte -> Z -> Z -> Z * list byte;
  e_known_rng : bool;                  (* __linux__ or __FreeBSD__ defined *)
  PACKAGE_BUGREPORT : string;
  PACKAGE_NAME : string;
  PACKAGE_VERSION : string
}.

(** ** A monad for state and early exit *)

Inductive outcome :=
| Exited (status : Z)          (* exit (status), or return from main *)
| Undefined (why : string).    (* the C standard gives the step no meaning *)

Inductive result (A : Type) :=
| Ret (a : A)
| Halt (o : outcome).
Arguments Ret {A} a.
Arguments Halt {A} o.

Definition M (A : Type) : Type := world -> result A * world.

Definition ret {A} (a : A) : M A := fun w => (Ret a, w).

Definition bind {A B} (m : M A) (k : A -> M B) : M B :=
  fun w =>
    match m w with
    | (Ret a, w') => k a w'
    | (Halt o, w') => (Halt o, w')
    end.

Declare Scope prog_scope.
Delimit Scope prog_scope with prog.
Bind Scope prog_scope with M.

Notation "x <- m ;; k" := (bind m (fun x => k))
  (at level 61, m at next level, right associativity) : prog_scope.
Notation "' pat <- m ;; k" := (bind m (fun x => match x with pat => k end))
  (at level 61, pat pattern, m at next level, right associativity) : prog_scope.
Notation "m ;; k" := (bind m (fun _ => k))
  (at level 61, right associativity) : prog_scope.
(** [p = f (...); if (!p) { cleanup }] where the cleanup does not return. *)
Notation "'let?' x ':=' m 'orelse' h 'in' k" :=
  (bind m (fun o => match o with Some x => k | None => h end))
  (at level 61, x name, m at next level, h at next level, right associativity) : prog_scope.

Local Open Scope prog_scope.

Definition emit (ev : event) : M unit :=
  fun w =>
    (Ret tt,
     {| w_termios := w_termios w; w_stdin := w_stdin w; w_tty := w_tty w;
        w_random := w_random w; w_tcsetattr_calls := w_tcsetattr_calls w;
        w_trace := w_trace w ++ [ev] |}).

Definition exit {A} (status : Z) : M A := fun w => (Halt (Exited status), w).

Definition undefined {A} (why : string) : M A := fun w => (Halt (Undefined why), w).

(** ** The library calls of the program *)

Section Program.

Variable e : env.

Definition printf (text : string) : M unit := emit (EvWrite F_stdout text).

Definition fprintf (f : file) (text : string) : M unit := emit (EvWrite f text).

(** Modelled from the spec: [grub_util_error] is declared in
    <grub/util/misc.h> and its definition is not among the sources; it
    writes a single diagnostic line to the error stream and ends the process
    with a non-zero status. *)
Definition grub_util_error {A} (msg : string) : M A :=
  fprintf F_stderr (msg +++ nl) ;; exit 1.

(** [malloc]: NULL, or a block of [size] bytes of unspecified content. *)
Definition malloc (b : buffer) (size : Z) : M (option (list byte)) :=
  if e_malloc_ok e b
  then emit (EvMalloc b size true) ;;
       ret (Some (map (e_fresh e b) (seq 0 (Z.to_nat size))))
  else emit (EvMalloc b size false) ;; ret None.

(** [free]: the trace keeps what the block held when it was released. *)
Definition free (b : buffer) (content : list byte) : M unit :=
  emit (EvFree b content).

Definition set_random (h : handle) : M unit :=
  fun w =>
    (Ret tt,
     {| w_termios := w_termios w; w_stdin := w_stdin w; w_tty := w_tty w;
        w_random := h; w_tcsetattr_calls := w_tcsetattr_calls w;
        w_trace := w_trace w |}).

(** [fopen]: whether the stream returned is not NULL. *)
Definition fopen (f : file) : M bool :=
  match f with
  | F_tty => emit (EvFopen f (e_tty_opens e)) ;; ret (e_tty_opens e)
  | F_random =>
      emit (EvFopen f (e_random_opens e)) ;;
      (if e_random_opens e then set_random Open else ret tt) ;;
      ret (e_random_opens e)
  | _ => emit (EvFopen f false) ;; ret false
  end.

(** [fclose (f)] on the stream of the salt block.  A stream that is NULL or
    already closed gives the call no defined behaviour. *)
Definition fclose (f : file) : M unit :=
  fun w =>
    match w_random w with
    | Open => (emit (EvFclose f Open) ;; set_random Closed) w
    | Null => (emit (EvFclose f Null) ;; undefined "fclose of a null stream") w
    | Closed => (emit (EvFclose f Closed) ;; undefined "fclose of a closed stream") w
    end.

(** [fread (buf, 1, size, f)]: the count read and the buffer afterwards. *)
Definition fread (buf : list byte) (size : Z) (f : file) : M (Z * list byte) :=
  fun w =>
    match w_random w with
    | Open =>
        let data := firstn (Z.to_nat size) (e_random e) in
        (emit (EvFread f size data) ;;
         ret (Z.of_nat (length data), overwrite buf data)) w
    | _ => undefined "fread of a stream that is not open" w
    end.

(** [tcgetattr (fileno (f), &t)]: success, and [t] afterwards. *)
Definition tcgetattr (f : file) (t : termios) : M (bool * termios) :=
  fun w =>
    (emit (EvTcgetattr f (e_tcgetattr_ok e)) ;;
     ret (if e_tcgetattr_ok e then (true, w_termios w) else (false, t))) w.

(** [tcsetattr (fileno (f), TCSAFLUSH, &t) == 0]. *)
Definition tcsetattr (f : file) (t : termios) : M bool :=
  fun w =>
    let ok := e_tcsetattr_ok e (w_tcsetattr_calls w) in
    (Ret ok,
     {| w_termios := if ok then t else w_termios w;
        w_stdin := w_stdin w; w_tty := w_tty w; w_random := w_random w;
        w_tcsetattr_calls := S (w_tcsetattr_calls w);
        w_trace := w_trace w ++ [EvTcsetattr f t ok] |}).

(** One line of input: up to and including the first newline, or up to the
    end of the input; nothing when the input is exhausted. *)
Fixpoint split_line (input : list byte) : option (list byte * list byte) :=
  match input with
  | [] => None
  | b :: rest =>
      if Byte.eqb b x0a then Some ([b], rest)
      else match split_line rest with
           | Some (line, rest') => Some (b :: line, rest')
           | None => Some ([b], [])
           end
  end.

Definition take_line (f : file) : M (option (list byte)) :=
  fun w =>
    let input := match f with F_stdin => w_stdin w | F_tty => w_tty w | _ => [] end in
    match split_line input with
    | None => (Ret None, w)
    | Some (line, rest) =>
        (Ret (Some line),
         {| w_termios := w_termios w;
            w_stdin := match f with F_stdin => rest | _ => w_stdin w end;
            w_tty := match f with F_tty => rest | _ => w_tty w end;
            w_random := w_random w; w_tcsetattr_calls := w_tcsetattr_calls w;
            w_trace := w_trace w |})
    end.

(** What a block that [getline] allocated for a line of [n] bytes holds past
    the line and its NUL: the call leaves that part as it was allocated. *)
Definition room (b : buffer) (n : nat) : list byte :=
  map (e_fresh e b) (seq (S n) (e_getline_room e b)).

(** [nr = getline (&p, &n, f)] with [p] NULL before: the count (-1 when no
    byte could be read) and the block [p] points at afterwards.  The block
    has [n] bytes, at least [nr + 1]: the line, its NUL, and the rest. *)
Definition getline (b : buffer) (f : file) : M (Z * option (list byte)) :=
  line <- take_line f ;;
  emit (EvGetline f line) ;;
  match line with
  | Some l => ret (Z.of_nat (length l), Some (l ++ x00 :: room b (length l)))
  | None => ret (-1, None)
  end.

(** Modelled from the spec: [grub_crypto_pbkdf2] is declared in
    <grub/crypto.h> and its definition is not among the sources; its contract
    is derive (SHA-512, password, salt, iterations, outputLength), giving an
    error code and the bytes written to the output buffer. *)
Definition grub_crypto_pbkdf2 (password salt : list byte) (c : Z)
    (buf : list byte) (buflen : Z) : M (Z * list byte) :=
  let '(err, dk) := e_pbkdf2 e password salt c buflen in
  emit (EvPbkdf2 password salt c buflen err) ;;
  ret (err, overwrite buf (firstn (length buf) dk)).

(** The call [hexify (hex, bin, n)]: [hex] afterwards.  Writing past the end
    of the block behind [hex] has no defined behaviour. *)
Definition call_hexify (hex bin : list byte) (n : Z) : M (list byte) :=
  match hexify bin (Z.to_nat n) with
  | None => undefined "hexify reads past the end of its input"
  | Some digits =>
      if (length digits <=? length hex)%nat then ret (overwrite hex digits)
      else undefined "hexify writes past the end of its output"
  end.

(** ** The program *)

Definition usage_text : string :=
  "Usage: grub-scrypt [OPTIONS]" +++ nl +++
  nl +++ "Options:" +++ nl +++
  "     -c number, --iteration-count=number  Number of PBKDF2 iterations" +++ nl +++
  "     -l number, --buflen=number           Length of generated hash" +++ nl +++
  "     -s number, --salt=number             Length of salt" +++ nl +++
  nl +++
  "Report bugs to <" +++ PACKAGE_BUGREPORT e +++ ">." +++ nl.

Definition usage {A} (status : Z) : M A :=
  (if negb (status =? 0)
   then fprintf F_stderr ("Try ``grub-scrypt --help'' for more information." +++ nl)
   else printf usage_text) ;;
  exit status.

Definition progname : string := "grub-pbkdf2".

(** What [getopt_long] does besides returning [c]: [main] leaves [opterr]
    set, so the library reports an option it rejects on standard error, in
    a line of its own wording, before it returns '?'. *)
Definition getopt_long_reports (c : Z) : M unit :=
  if c =? char "?" then fprintf F_stderr (e_getopt_says e +++ nl) else ret tt.

(** The option loop of [main].  Its body declares [int c = getopt_long (...)],
    a second variable [c] that hides the iteration count [c] of [main] down
    to the end of the body: [case 'c'] assigns that inner variable. *)
Fixpoint options_loop (opts : list (Z * Z)) (c buflen saltlen : Z) : M (Z * Z * Z) :=
  match opts with
  | [] => ret (c, buflen, saltlen)                 (* c == -1: break *)
  | (c', optarg) :: opts' =>
      getopt_long_reports c' ;;
      if c' =? char "c" then
        let c' := to_int optarg in                 (* c = strtoul (optarg, NULL, 0) *)
        options_loop opts' c buflen saltlen
      else if c' =? char "l" then
        options_loop opts' c (to_uint optarg) saltlen
      else if c' =? char "s" then
        options_loop opts' c buflen (to_uint optarg)
      else if c' =? char "h" then
        usage 0
      else if c' =? char "V" then
        printf (progname +++ " (" +++ PACKAGE_NAME e +++ ") " +++ PACKAGE_VERSION e +++ nl) ;;
        exit 0                                     (* return 0 *)
      else
        usage 1
  end.

Definition main : M Z :=
  let c := 10000 in
  let buflen := 64 in
  let saltlen := 64 in
  '(c, buflen, saltlen) <- options_loop (e_getopt e) c buflen saltlen ;;

  let? bufhex := malloc Bufhex (to_uint (buflen * 2 + 1))
    orelse grub_util_error "Out of memory" in
  let? buf := malloc Buf buflen
    orelse (free Bufhex bufhex ;;
            grub_util_error "Out of memory") in
  let? salt := malloc Salt saltlen
    orelse (free Bufhex bufhex ;;
            free Buf buf ;;
            grub_util_error "Out of memory") in
  let? salthex := malloc Salthex (to_uint (saltlen * 2 + 1))
    orelse (free Salt salt ;;
            free Bufhex bufhex ;;
            free Buf buf ;;
            grub_util_error "Out of memory") in

  (* Disable echoing. *)
  opened <- fopen F_tty ;;
  let in_ := if opened then F_tty else F_stdin in
  let out := if opened then F_tty else F_stderr in   (* never used below *)
  '(got, t) <- tcgetattr in_ (e_uninit e) ;;
  '(s, tty_changed) <-
    (if got then
       let s := t in
       let t := set_lflag t (Z.land (c_lflag t) (Z.lnot (Z.lor ECHO ISIG))) in
       changed <- tcsetattr in_ t ;;
       ret (s, changed)
     else ret (e_uninit e, false)) ;;

  printf "Enter password: " ;;
  '(nr, pass1) <- getline Pass1 F_stdin ;;
  let? pass1 := ret (if nr <? 0 then None else pass1)
    orelse (free Buf buf ;;
            free Bufhex bufhex ;;
            free Salthex salthex ;;
            free Salt salt ;;
            (* Restore the original setting. *)
            (if tty_changed then tcsetattr in_ s ;; ret tt else ret tt) ;;
            grub_util_error "Failure to read password") in
  let pass1 :=
    if (1 <=? nr) && Byte.eqb (load pass1 (nr - 1)) x0a
    then store pass1 (nr - 1) x00 else pass1 in

  printf (nl +++ "Reenter password: ") ;;
  '(nr, pass2) <- getline Pass2 F_stdin ;;
  (* Restore the original setting. *)
  (if tty_changed then tcsetattr in_ s ;; ret tt else ret tt) ;;
  printf nl ;;

  let? pass2 := ret (if nr <? 0 then None else pass2)
    orelse (let pass1 := memset pass1 (strlen pass1) in
            free Pass1 pass1 ;;
            free Buf buf ;;
            free Bufhex bufhex ;;
            free Salthex salthex ;;
            free Salt salt ;;
            grub_util_error "Failure to read password") in
  let pass2 :=
    if (1 <=? nr) && Byte.eqb (load pass2 (nr - 1)) x0a
    then store pass2 (nr - 1) x00 else pass2 in

  (if negb (strcmp pass1 pass2 =? 0) then
     let pass1 := memset pass1 (strlen pass1) in
     let pass2 := memset pass2 (strlen pass2) in
     free Pass1 pass1 ;;
     free Pass2 pass2 ;;
     free Buf buf ;;
     free Bufhex bufhex ;;
     free Salthex salthex ;;
     free Salt salt ;;
     grub_util_error "Passwords don't match"
   else ret tt) ;;
  let pass2 := memset pass2 (strlen pass2) in
  free Pass2 pass2 ;;

  (if negb (e_known_rng e)
   then printf ("WARNING: your random generator isn't known to be secure" +++ nl)
   else ret tt) ;;

  f <- fopen F_random ;;
  (if negb f then
     let pass1 := memset pass1 (strlen pass1) in
     free Pass1 pass1 ;;
     free Buf buf ;;
     free Bufhex bufhex ;;
     free Salthex salthex ;;
     free Salt salt ;;
     fclose F_random ;;
     grub_util_error "Couldn't retrieve random data for salt"
   else ret tt) ;;
  '(rd, salt) <- fread salt saltlen F_random ;;
  (if negb (rd =? saltlen) then
     fclose F_random ;;
     let pass1 := memset pass1 (strlen pass1) in
     free Pass1 pass1 ;;
     free Buf buf ;;
     free Bufhex bufhex ;;
     free Salthex salthex ;;
     free Salt salt ;;
     fclose F_random ;;
     grub_util_error "Couldn't retrieve random data for salt"
   else ret tt) ;;
  fclose F_random ;;

  '(gcry_err, buf) <-
    grub_crypto_pbkdf2 (firstn (Z.to_nat (strlen pass1)) pass1)
      (firstn (Z.to_nat saltlen) salt) c buf buflen ;;
  let pass1 := memset pass1 (strlen pass1) in
  free Pass1 pass1 ;;

  (if negb (gcry_err =? 0) then
     let buf := memset buf buflen in
     let bufhex := memset bufhex (to_uint (2 * buflen)) in
     free Buf buf ;;
     free Bufhex bufhex ;;
     let salt := memset salt saltlen in
     let salthex := memset salthex (to_uint (2 * saltlen)) in
     free Salt salt ;;
     free Salthex salthex ;;
     grub_util_error ("Cryptographic error number " +++ fmt_d gcry_err)
   else ret tt) ;;

  bufhex <- call_hexify bufhex buf buflen ;;
  salthex <- call_hexify salthex salt saltlen ;;

  printf ("Your PBKDF2 is grub.pbkdf2.sha512." +++ fmt_d c +++ "."
          +++ fmt_s salthex +++ "." +++ fmt_s bufhex +++ nl) ;;
  let buf := memset buf buflen in
  let bufhex := memset bufhex (to_uint (2 * buflen)) in
  free Buf buf ;;
  free Bufhex bufhex ;;
  let salt := memset salt saltlen in
  let salthex := memset salthex (to_uint (2 * saltlen)) in
  free Salt salt ;;
  free Salthex salthex ;;

  ret 0.

(** ** Running the program *)

Definition initial_world : world :=
  {| w_termios := e_termios e; w_stdin := e_stdin e; w_tty := e_tty_input e;
     w_random := Null; w_tcsetattr_calls := 0%nat; w_trace := [] |}.

Definition run : outcome * world :=
  match main initial_world with
  | (Ret status, w) => (Exited status, w)
  | (Halt o, w) => (o, w)
  end.

End Program.

(** ** Observations on a run *)

Definition status_of (e : env) : outcome := fst (run e).
Definition trace_of (e : env) : list event := w_trace (snd (run e)).
Definition final_termios (e : env) : termios := w_termios (snd (run e)).

Definition file_eqb (f g : file) : bool :=
  match f, g with
  | F_stdin, F_stdin | F_stdout, F_stdout | F_stderr, F_stderr
  | F_tty, F_tty | F_random, F_random => true
  | _, _ => false
  end.

(** The texts written to a stream, in order. *)
Definition written (f : file) (tr : list event) : list string :=
  flat_map (fun ev => match ev with
                      | EvWrite g text => if file_eqb f g then [text] else []
                      | _ => []
                      end) tr.

(** The number of lines a sequence of texts makes up: its newlines. *)
Fixpoint newlines (s : string) : nat :=
  match s with
  | EmptyString => O
  | String a s' => ((if Ascii.eqb a (ascii_of_nat 10) then 1 else 0) + newlines s')%nat
  end.

Definition lines_written (f : file) (tr : list event) : nat :=
  list_sum (map newlines (written f tr)).

(** The last character of a text, [d] for the empty one. *)
Fixpoint last_char (s : string) (d : ascii) : ascii :=
  match s with
  | EmptyString => d
  | String a s' => last_char s' a
  end.

Definition is_pbkdf2 (ev : event) : bool :=
  match ev with EvPbkdf2 _ _ _ _ _ => true | _ => false end.
Definition is_fread (ev : event) : bool :=
  match ev with EvFread _ _ _ => true | _ => false end.
Definition is_getline (ev : event) : bool :=
  match ev with EvGetline _ _ => true | _ => false end.
Definition is_tcsetattr (ev : event) : bool :=
  match ev with EvTcsetattr _ _ _ => true | _ => false end.

(** The calls of the derivation primitive, of [fread], of [tcsetattr]. *)
Definition derivations (tr : list event) : list event := filter is_pbkdf2 tr.
Definition freads (tr : list event) : list event := filter is_fread tr.
Definition tcsetattrs (tr : list event) : list event := filter is_tcsetattr tr.

(** The credential line for an iteration count, a salt and a key. *)
Definition credential_line (c : Z) (salt key : list byte) : string :=
  "Your PBKDF2 is grub.pbkdf2.sha512." +++ fmt_d c +++ "."
  +++ string_of_list_byte (hex_pairs salt) +++ "."
  +++ string_of_list_byte (hex_pairs key) +++ nl.

(** The first [buflen] bytes of the key block after the derivation has
    written into it. *)
Definition key_buffer (e : env) (password salt : list byte) (c buflen : Z) : list byte :=
  let buf := map (e_fresh e Buf) (seq 0 (Z.to_nat buflen)) in
  firstn (Z.to_nat buflen)
    (overwrite buf (firstn (length buf) (snd (e_pbkdf2 e password salt c buflen)))).

Fixpoint string_prefix (p s : string) : bool :=
  match p, s with
  | EmptyString, _ => true
  | String a p', String b s' => Ascii.eqb a b && string_prefix p' s'
  | String _ _, EmptyString => false
  end.

Definition is_credential (text : string) : bool :=
  string_prefix "Your PBKDF2 is " text.

(** One trailing newline removed, when there is one. *)
Definition strip_newline (line : list byte) : list byte :=
  match rev line with
  | b :: front => if Byte.eqb b x0a then rev front else line
  | [] => line
  end.

(** The lines [getline] delivered, and the calls that touch the terminal or
    read from it. *)
Definition reads (tr : list event) : list (option (list byte)) :=
  flat_map (fun ev => match ev with EvGetline _ line => [line] | _ => [] end) tr.

Definition tty_events (tr : list event) : list event :=
  filter (fun ev => is_getline ev || is_tcsetattr ev) tr.

(** [if (nr >= 1 && p[nr-1] == '\n') p[nr-1] = 0], as [main] has it twice. *)
Definition chomp (p : list byte) (nr : Z) : list byte :=
  if (1 <=? nr) && Byte.eqb (load p (nr - 1)) x0a then store p (nr - 1) x00 else p.

(** The attributes [main] installs: [c_lflag &= ~(ECHO|ISIG)]. *)
Definition modified (t : termios) : termios :=
  set_lflag t (Z.land (c_lflag t) (Z.lnot (Z.lor ECHO ISIG))).

Definition termios_eqb (t u : termios) : bool :=
  (c_iflag t =? c_iflag u) && (c_oflag t =? c_oflag u) &&
  (c_cflag t =? c_cflag u) && (c_lflag t =? c_lflag u).

(** Whether a [tcsetattr] installing [s] comes before the next read. *)
Fixpoint restore_before_next_read (s : termios) (tr : list event) : bool :=
  match tr with
  | [] => false
  | EvTcsetattr _ t _ :: _ => termios_eqb t s
  | EvGetline _ _ :: _ => false
  | _ :: rest => restore_before_next_read s rest
  end.

(** Whether every read is followed by such a restoration. *)
Fixpoint restored_after_each_read (s : termios) (tr : list event) : bool :=
  match tr with
  | [] => true
  | EvGetline _ _ :: rest =>
      restore_before_next_read s rest && restored_after_each_read s rest
  | _ :: rest => restored_after_each_read s rest
  end.

(** The blocks that hold a password, the salt or the derived key. *)
Definition secret (b : buffer) : bool :=
  match b with
  | Pass1 | Pass2 | Salt | Buf => true
  | Bufhex | Salthex => false
  end.

(** Whether every such block held only zero bytes when it was released. *)
Definition releases_zeroized (tr : list event) : bool :=
  forallb (fun ev => match ev with
                     | EvFree b content => negb (secret b) || forallb is_nul content
                     | _ => true
                     end) tr.

Definition mismatch_message : string := "Passwords don't match" +++ nl.

(** The two prompts, and what a run that derives a key prints before the
    credential line. *)
Definition is_prompt (text : string) : bool :=
  String.eqb text "Enter password: " || String.eqb text (nl +++ "Reenter password: ").

Definition prompts : list string :=
  ["Enter password: "%string; nl +++ "Reenter password: "; nl].

Definition warning (e : env) : list string :=
  if e_known_rng e then []
  else ["WARNING: your random generator isn't known to be secure" +++ nl].

(** ** Sample environments *)

(** A terminal with ECHO and ISIG set. *)
Definition sample_termios : termios :=
  {| c_iflag := 11522; c_oflag := 5; c_cflag := 191; c_lflag := 35387 |}.

(** A stand-in for the derivation primitive in the sample runs: it answers 0
    and fills the key with the byte a5. *)
Definition stand_in_pbkdf2 (password salt : list byte) (c buflen : Z) : Z * list byte :=
  (0, repeat xa5 (Z.to_nat buflen)).

Definition sample_env (opts : list (Z * Z)) (stdin tty_input : list byte)
    (random_opens : bool) (random : list byte) : env :=
  {| e_getopt := opts;
     e_getopt_says := "grub-pbkdf2: invalid option -- 'x'";
     e_malloc_ok := fun _ => true;
     e_fresh := fun _ _ => x00;
     e_uninit := {| c_iflag := 0; c_oflag := 0; c_cflag := 0; c_lflag := 0 |};
     e_tty_opens := true;
     e_tcgetattr_ok := true;
     e_tcsetattr_ok := fun _ => true;
     e_termios := sample_termios;
     e_stdin := stdin;
     e_tty_input := tty_input;
     e_getline_room := fun _ => 7%nat;
     e_random_opens := random_opens;
     e_random := random;
     e_pbkdf2 := stand_in_pbkdf2;
     e_known_rng := true;
     PACKAGE_BUGREPORT := "bug-grub@gnu.org";
     PACKAGE_NAME := "GRUB";
     PACKAGE_VERSION := "1.97" |}.

(** [-l 4 -s 4] and [-c 5 -l 4 -s 4] on the command line. *)
Definition short_options : list (Z * Z) := [(char "l", 4); (char "s", 4)].
Definition count_options : list (Z * Z) := (char "c", 5) :: short_options.

(** The password typed twice, four random bytes at hand. *)
Definition env_success : env :=
  sample_env short_options (bytes ("hunter2" +++ nl +++ "hunter2" +++ nl)) []
    true [x00; x01; x02; x03].

(** The same run with [-c 5]. *)
Definition env_count : env :=
  sample_env count_options (bytes ("hunter2" +++ nl +++ "hunter2" +++ nl)) []
    true [x00; x01; x02; x03].

(** One password waits on the terminal, another on standard input. *)
Definition env_tty : env :=
  sample_env short_options (bytes ("piped" +++ nl +++ "piped" +++ nl))
    (bytes ("typed" +++ nl +++ "typed" +++ nl)) true [x00; x01; x02; x03].

(** The random device delivers three of the four bytes asked for. *)
Definition env_short_read : env :=
  sample_env short_options (bytes ("hunter2" +++ nl +++ "hunter2" +++ nl)) []
    true [x11; x22; x33].

(** The random device cannot be opened. *)
Definition env_no_random : env :=
  sample_env short_options (bytes ("hunter2" +++ nl +++ "hunter2" +++ nl)) []
    false [].

(** The entries [a NUL b] and [a NUL c], each ended by a newline. *)
Definition env_nul : env :=
  sample_env short_options [x61; x00; x62; x0a; x61; x00; x63; x0a] []
    true [x00; x01; x02; x03].

(** Two entries that differ in their last letter. *)
Definition env_mismatch : env :=
  sample_env short_options (bytes ("hunter2" +++ nl +++ "hunter3" +++ nl)) []
    true [x00; x01; x02; x03].

(** Return pressed twice. *)
Definition env_empty : env :=
  sample_env short_options [x0a; x0a] [] true [x00; x01; x02; x03].

(** The primitive rejects its parameters with code 5. *)
Definition env_derivation_fails : env :=
  {| e_getopt := short_options;
     e_getopt_says := "grub-pbkdf2: invalid option -- 'x'";
     e_malloc_ok := fun _ => true;
     e_fresh := fun _ _ => x7f;
     e_uninit := e_uninit env_success;
     e_tty_opens := false;
     e_tcgetattr_ok := true;
     e_tcsetattr_ok := fun _ => true;
     e_termios := sample_termios;
     e_stdin := bytes ("hunter2" +++ nl +++ "hunter2" +++ nl);
     e_tty_input := [];
     e_getline_room := fun _ => 3%nat;
     e_random_opens := true;
     e_random := [x00; x01; x02; x03];
     e_pbkdf2 := fun _ _ _ _ => (5, [xde; xad]);
     e_known_rng := false;
     PACKAGE_BUGREPORT := "bug-grub@gnu.org";
     PACKAGE_NAME := "GRUB";
     PACKAGE_VERSION := "1.97" |}.

(** ** More observations on a run *)

(** The length [main] ends the option loop with for the option [code]: the
    value of its last occurrence as an [unsigned int], or the default. *)
Fixpoint length_option (code default : Z) (opts : list (Z * Z)) : Z :=
  match opts with
  | [] => default
  | (c, optarg) :: rest =>
      length_option code (if c =? code then to_uint optarg else default) rest
  end.

(** The first option that is none of c, l and s. *)
Fixpoint first_decisive (opts : list (Z * Z)) : option Z :=
  match opts with
  | [] => None
  | (c, _) :: rest =>
      if (c =? char "c") || (c =? char "l") || (c =? char "s")
      then first_decisive rest else Some c
  end.

Definition buffer_eqb (a b : buffer) : bool :=
  match a, b with
  | Bufhex, Bufhex | Buf, Buf | Salt, Salt | Salthex, Salthex
  | Pass1, Pass1 | Pass2, Pass2 => true
  | _, _ => false
  end.

(** How often a block was obtained from [malloc], and how often freed. *)
Definition allocations (b : buffer) (tr : list event) : nat :=
  length (filter (fun ev => match ev with
                            | EvMalloc b' _ true => buffer_eqb b b'
                            | _ => false
                            end) tr).

Definition releases (b : buffer) (tr : list event) : nat :=
  length (filter (fun ev => match ev with
                            | EvFree b' _ => buffer_eqb b b'
                            | _ => false
                            end) tr).

Definition is_fopen_random (ev : event) : bool :=
  match ev with EvFopen F_random _ => true | _ => false end.

(** A line without a NUL byte; a failed read counts as one. *)
Definition nul_free (line : option (list byte)) : bool :=
  match line with
  | Some l => forallb (fun b => negb (is_nul b)) l
  | None => true
  end.

Definition version_text (e : env) : string :=
  progname +++ " (" +++ PACKAGE_NAME e +++ ") " +++ PACKAGE_VERSION e +++ nl.

Definition hint_text : string :=
  "Try ``grub-scrypt --help'' for more information." +++ nl.

(** The ways a run can fail, under the names the specification has for
    them, each told from the trace of the run. *)
Inductive failure :=
| AllocationError | InputError | MismatchError | EntropyError | DerivationError.

Definition failed (e : env) (k : failure) : Prop :=
  match k with
  | AllocationError => exists b size, In (EvMalloc b size false) (trace_of e)
  | InputError => In None (reads (trace_of e))
  | MismatchError =>
      exists first second,
        reads (trace_of e) = [Some first; Some second] /\
        cstr (strip_newline first) <> cstr (strip_newline second)
  | EntropyError =>
      In (EvFopen F_random false) (trace_of e) \/
      exists size data,
        In (EvFread F_random size data) (trace_of e) /\ Z.of_nat (length data) <> size
  | DerivationError =>
      exists password salt c buflen err,
        derivations (trace_of e) = [EvPbkdf2 password salt c buflen err] /\ err <> 0
  end.

(** How the diagnostic [main] has for each of them begins. *)
Definition diagnostic (k : failure) : string :=
  match k with
  | AllocationError => "Out of memory"
  | InputError => "Failure to read password"
  | MismatchError => "Passwords don't match"
  | EntropyError => "Couldn't retrieve random data for salt"
  | DerivationError => "Cryptographic error number "
  end.

(** Return pressed twice, and the random device cannot be opened. *)
Definition env_empty_no_random : env :=
  sample_env short_options [x0a; x0a] [] false [].

(** [-l 4], then the lower-case [-v], then [-h]. *)
Definition env_lower_v : env :=
  sample_env [(char "l", 4); (char "v", 0); (char "h", 0)]
    (bytes ("hunter2" +++ nl +++ "hunter2" +++ nl)) [] true [x00; x01; x02; x03].

(** [-l 4], then an option the library rejects, then [-h]. *)
Definition env_rejected_option : env :=
  sample_env [(char "l", 4); (char "?", 0); (char "h", 0)]
    (bytes ("hunter2" +++ nl +++ "hunter2" +++ nl)) [] true [x00; x01; x02; x03].

(** Standard input ends after the first entry. *)
Definition env_one_entry : env :=
  sample_env short_options (bytes ("hunter2" +++ nl)) [] true [x00; x01; x02; x03].

(** [-l 8 -s 2 -l 3]: the output length is given twice. *)
Definition env_repeated_option : env :=
  sample_env [(char "l", 8); (char "s", 2); (char "l", 3)]
    (bytes ("hunter2" +++ nl +++ "hunter2")) [] true [x10; x20; x30].

(** The third block cannot be allocated. *)
Definition env_no_memory : env :=
  {| e_getopt := short_options;
     e_getopt_says := "grub-pbkdf2: invalid option -- 'x'";
     e_malloc_ok := fun b => match b with Salt => false | _ => true end;
     e_fresh := fun _ _ => x7f;
     e_uninit := e_uninit env_success;
     e_tty_opens := true;
     e_tcgetattr_ok := true;
     e_tcsetattr_ok := fun _ => true;
     e_termios := sample_termios;
     e_stdin := bytes ("hunter2" +++ nl +++ "hunter2" +++ nl);
     e_tty_input := [];
     e_getline_room := fun _ => 3%nat;
     e_random_opens := true;
     e_random := [x00; x01; x02; x03];
     e_pbkdf2 := stand_in_pbkdf2;
     e_known_rng := true;
     PACKAGE_BUGREPORT := "bug-grub@gnu.org";
     PACKAGE_NAME := "GRUB";
     PACKAGE_VERSION := "1.97" |}.

(** Standard input is a pipe and there is no controlling terminal: neither
    the terminal device opens nor can attributes be read. *)
Definition env_piped : env :=
  {| e_getopt := short_options;
     e_getopt_says := "grub-pbkdf2: invalid option -- 'x'";
     e_malloc_ok := fun _ => true;
     e_fresh := fun _ _ => x00;
     e_uninit := e_uninit env_success;
     e_tty_opens := false;
     e_tcgetattr_ok := false;
     e_tcsetattr_ok := fun _ => false;
     e_termios := sample_termios;
     e_stdin := bytes ("hunter2" +++ nl +++ "hunter2" +++ nl);
     e_tty_input := [];
     e_getline_room := fun _ => 3%nat;
     e_random_opens := true;
     e_random := [x00; x01; x02; x03];
     e_pbkdf2 := stand_in_pbkdf2;
     e_known_rng := true;
     PACKAGE_BUGREPORT := "bug-grub@gnu.org";
     PACKAGE_NAME := "GRUB";
     PACKAGE_VERSION := "1.97" |}.

(** ** Five statements of the specification, as it words them *)

(** The confirmation compares the two entries byte for byte, each without
    its newline: entries that differ end the run with the mismatch
    diagnostic and no credential line. *)
Definition byte_for_byte_confirmation (e : env) : Prop :=
  forall first second,
    reads (trace_of e) = [Some first; Some second] ->
    strip_newline first <> strip_newline second ->
    status_of e = Exited 1 /\
    written F_stderr (trace_of e) = [mismatch_message] /\
    filter is_credential (written F_stdout (trace_of e)) = [].

(** Once the attributes were modified, the saved ones are installed again
    after each read, and the echo attribute ends as it began. *)
Definition restored_after_both_reads (e : env) : Prop :=
  forall f t,
    hd_error (tcsetattrs (trace_of e)) = Some (EvTcsetattr f t true) ->
    restored_after_each_read (e_termios e) (trace_of e) = true /\
    echo_on (final_termios e) = echo_on (e_termios e).

(** The lines are read from the terminal device when it opens, and only
    otherwise from standard input, the prompts then going to standard
    error. *)
Definition terminal_is_preferred (e : env) : Prop :=
  Forall (fun ev =>
            match ev with
            | EvGetline f _ => f = if e_tty_opens e then F_tty else F_stdin
            | EvWrite f text =>
                is_prompt text = true -> f = if e_tty_opens e then F_tty else F_stderr
            | _ => True
            end) (trace_of e).

(** Two entries that are a lone newline each are accepted, and a key is
    derived from the empty password. *)
Definition empty_entries_are_derived (e : env) : Prop :=
  reads (trace_of e) = [Some [x0a]; Some [x0a]] ->
  ~ In mismatch_message (written F_stderr (trace_of e)) /\
  exists salt c buflen err,
    derivations (trace_of e) = [EvPbkdf2 [] salt c buflen err].

(** A run whose derivation succeeds exits with status 0 and has the
    credential line as the one line of its standard output; a run that fails
    exits with a non-zero status and prints no credential line. *)
Definition one_line_on_stdout (e : env) : Prop :=
  (forall password salt c buflen,
     derivations (trace_of e) = [EvPbkdf2 password salt c buflen 0] ->
     status_of e = Exited 0 /\
     exists key, written F_stdout (trace_of e) = [credential_line c salt key]) /\
  (status_of e <> Exited 0 ->
     (exists status, status_of e = Exited status /\ status <> 0) /\
     filter is_credential (written F_stdout (trace_of e)) = []).

(** ** The encoder *)

(** What [hexify] writes for one byte, against the digit table. *)
Lemma hexify_byte (b : byte) :
  hex_digit (hi_nibble b) = digit_of (byte_to_Z b / 16) /\
  hex_digit (lo_nibble b) = digit_of (byte_to_Z b mod 16).
Proof. destruct b; split; vm_compute; reflexivity. Qed.

Lemma digit_pair (b : byte) :
  is_hex_digit (digit_of (byte_to_Z b / 16)) = true /\
  is_hex_digit (digit_of (byte_to_Z b mod 16)) = true /\
  unhex_digit (digit_of (byte_to_Z b / 16)) = Some (byte_to_Z b / 16) /\
  unhex_digit (digit_of (byte_to_Z b mod 16)) = Some (byte_to_Z b mod 16) /\
  byte_of_Z (16 * (byte_to_Z b / 16) + byte_to_Z b mod 16) = b.
Proof. destruct b; vm_compute; repeat split. Qed.

Lemma hex_pairs_cons (b : byte) (bin : list byte) :
  hex_pairs (b :: bin) =
  digit_of (byte_to_Z b / 16) :: digit_of (byte_to_Z b mod 16) :: hex_pairs bin.
Proof. reflexivity. Qed.

Lemma hexify_whole (bin : list byte) :
  hexify bin (length bin) = Some (hex_pairs bin ++ [x00]).
Proof.
  induction bin as [| b bin IH]; [reflexivity |].
  cbn [hexify length]. rewrite IH, hex_pairs_cons.
  destruct (hexify_byte b) as [-> ->]. reflexivity.
Qed.

Lemma hex_pairs_length (bin : list byte) :
  length (hex_pairs bin) = (2 * length bin)%nat.
Proof.
  induction bin as [| b bin IH]; [reflexivity |].
  rewrite hex_pairs_cons. cbn [length]. rewrite IH. lia.
Qed.

Lemma hex_pairs_digits (bin : list byte) :
  forallb is_hex_digit (hex_pairs bin) = true.
Proof.
  induction bin as [| b bin IH]; [reflexivity |].
  rewrite hex_pairs_cons. cbn [forallb].
  destruct (digit_pair b) as (-> & -> & _). exact IH.
Qed.

Lemma unhexify_hex_pairs (bin : list byte) : unhexify (hex_pairs bin) = Some bin.
Proof.
  induction bin as [| b bin IH]; [reflexivity |].
  rewrite hex_pairs_cons. cbn [unhexify].
  destruct (digit_pair b) as (_ & _ & -> & -> & Hb).
  rewrite IH, Hb. reflexivity.
Qed.

(** C8. For every byte sequence, [hexify] called with its length writes, for
    each byte, the digit of the high nibble and then the digit of the low
    nibble (0-9 as '0'-'9', 10-15 as 'A'-'F'), then the closing NUL; the
    digits are twice as many as the bytes, all of them from 0-9A-F, and
    decoding them gives the bytes back. *)
Theorem hexify_roundtrip (bin : list byte) :
  hexify bin (length bin) = Some (hex_pairs bin ++ [x00]) /\
  length (hex_pairs bin) = (2 * length bin)%nat /\
  forallb is_hex_digit (hex_pairs bin) = true /\
  unhexify (hex_pairs bin) = Some bin.
Proof.
  repeat split.
  - apply hexify_whole.
  - apply hex_pairs_length.
  - apply hex_pairs_digits.
  - apply unhexify_hex_pairs.
Qed.

(** ** C strings *)

Lemma byte_to_Z_inj (x y : byte) : byte_to_Z x = byte_to_Z y -> x = y.
Proof.
  unfold byte_to_Z. intros H. apply N2Z.inj in H.
  assert (Hs : Some x = Some y)
    by (rewrite <- (Byte.of_to_N x), <- (Byte.of_to_N y), H; reflexivity).
  congruence.
Qed.

Lemma is_nul_spec (b : byte) : is_nul b = true <-> b = x00.
Proof.
  unfold is_nul. split; [apply Byte.byte_dec_bl | apply Byte.byte_dec_lb].
Qed.

Lemma byte_to_Z_nul (b : byte) : byte_to_Z b = 0 <-> b = x00.
Proof.
  split; [intros H; apply byte_to_Z_inj; exact H | intros ->; reflexivity].
Qed.

(** [strcmp] answers 0 exactly when the two strings agree up to their NUL. *)
Lemma strcmp_zero (a b : list byte) : strcmp a b = 0 <-> cstr a = cstr b.
Proof.
  revert b. induction a as [| x a IH]; intros [| y b]; cbn [strcmp cstr].
  - tauto.
  - destruct (is_nul y) eqn:Hy.
    + apply is_nul_spec in Hy. subst y. split; reflexivity.
    + split; [| discriminate]. intros H.
      assert (Hz : byte_to_Z y = 0) by lia.
      apply byte_to_Z_nul in Hz. subst y. discriminate Hy.
  - destruct (is_nul x) eqn:Hx.
    + apply is_nul_spec in Hx. subst x. split; reflexivity.
    + split; [| discriminate]. intros H.
      apply byte_to_Z_nul in H. subst x. discriminate Hx.
  - destruct (Byte.eqb x y) eqn:Hxy.
    + apply Byte.byte_dec_bl in Hxy. subst y.
      destruct (is_nul x); [tauto |].
      rewrite IH. split; [congruence | intros H; injection H; tauto].
    + apply Byte.eqb_false in Hxy.
      split.
      * intros H. exfalso. apply Hxy, byte_to_Z_inj. lia.
      * destruct (is_nul x) eqn:Hx, (is_nul y) eqn:Hy; intros H;
          try discriminate H.
        -- apply is_nul_spec in Hx, Hy. congruence.
        -- injection H as H _. contradiction.
Qed.

Lemma cstr_app_nul (l rest : list byte) : cstr (l ++ x00 :: rest) = cstr l.
Proof.
  induction l as [| b l IH]; cbn [cstr app]; [reflexivity |].
  destruct (is_nul b); [reflexivity | rewrite IH; reflexivity].
Qed.

Lemma firstn_cstr (p : list byte) : firstn (length (cstr p)) p = cstr p.
Proof.
  induction p as [| b p IH]; cbn [cstr]; [reflexivity |].
  destruct (is_nul b); cbn [length firstn]; [reflexivity | rewrite IH; reflexivity].
Qed.

(** The bytes [main] hands to the derivation: [p] with length [strlen (p)]. *)
Lemma firstn_strlen (p : list byte) : firstn (Z.to_nat (strlen p)) p = cstr p.
Proof. unfold strlen. rewrite Nat2Z.id. apply firstn_cstr. Qed.

Lemma load_app (l : list byte) (b : byte) (rest : list byte) :
  load (l ++ b :: rest) (Z.of_nat (length l + 1) - 1) = b.
Proof.
  unfold load. replace (Z.to_nat (Z.of_nat (length l + 1) - 1)) with (length l) by lia.
  rewrite app_nth2 by lia. rewrite Nat.sub_diag. reflexivity.
Qed.

Lemma store_app (l : list byte) (b v : byte) (rest : list byte) :
  store (l ++ b :: rest) (Z.of_nat (length l + 1) - 1) v = l ++ v :: rest.
Proof.
  unfold store. replace (Z.to_nat (Z.of_nat (length l + 1) - 1)) with (length l) by lia.
  induction l as [| x l IH]; cbn [store_nat app length]; [reflexivity |].
  rewrite IH. reflexivity.
Qed.

Lemma chomp_snoc (front : list byte) (b : byte) (rest : list byte) :
  chomp ((front ++ [b]) ++ x00 :: rest) (Z.of_nat (length (front ++ [b]))) =
  if Byte.eqb b x0a then front ++ x00 :: x00 :: rest else front ++ b :: x00 :: rest.
Proof.
  unfold chomp. rewrite length_app, <- app_assoc. cbn [length app].
  rewrite load_app, store_app.
  replace (1 <=? Z.of_nat (length front + 1)) with true
    by (symmetry; apply Z.leb_le; lia).
  reflexivity.
Qed.

(** After the newline is cut, the buffer [getline] filled holds the line
    without its newline, as far as its first NUL. *)
Lemma cstr_chomp (line rest : list byte) :
  cstr (chomp (line ++ x00 :: rest) (Z.of_nat (length line))) = cstr (strip_newline line).
Proof.
  destruct (rev line) as [| b front] eqn:Hrev.
  - assert (line = []) as -> by (rewrite <- (rev_involutive line), Hrev; reflexivity).
    reflexivity.
  - assert (Hline : line = rev front ++ [b])
      by (rewrite <- (rev_involutive line), Hrev; reflexivity).
    unfold strip_newline. rewrite Hrev. subst line.
    rewrite chomp_snoc.
    destruct (Byte.eqb b x0a).
    + apply cstr_app_nul.
    + change (rev front ++ b :: x00 :: rest) with (rev front ++ [b] ++ x00 :: rest).
      rewrite app_assoc. apply cstr_app_nul.
Qed.

Lemma last_char_line (s : string) (d : ascii) : last_char (s +++ nl) d = ascii_of_nat 10.
Proof.
  revert d. induction s as [| a s IH]; intros d; [reflexivity |].
  cbn [String.append last_char]. apply IH.
Qed.

(** A text that ends a line is neither of the prompts. *)
Lemma line_is_no_prompt (s : string) : is_prompt (s +++ nl) = false.
Proof.
  unfold is_prompt. apply orb_false_iff.
  split; apply String.eqb_neq; intros H;
    apply (f_equal (fun t => last_char t (ascii_of_nat 0))) in H;
    rewrite last_char_line in H; discriminate H.
Qed.

Lemma firstn_overwrite (buf data : list byte) (n : nat) :
  length data = n -> firstn n (overwrite buf data) = data.
Proof.
  intros <-. unfold overwrite. rewrite firstn_app, Nat.sub_diag, firstn_all.
  cbn [firstn]. apply app_nil_r.
Qed.

(** ** Buffers *)

Lemma overwrite_length (buf data : list byte) :
  length (overwrite buf data) = Nat.max (length data) (length buf).
Proof. unfold overwrite. rewrite length_app, length_skipn. lia. Qed.

(** A [memset] over the whole block leaves zero bytes only. *)
Lemma memset_covers (buf : list byte) (n : Z) :
  (length buf <= Z.to_nat n)%nat -> forallb is_nul (memset buf n) = true.
Proof.
  intros H. unfold memset. rewrite skipn_all2 by exact H.
  rewrite app_nil_r. apply forallb_forall. intros b Hb.
  apply repeat_spec in Hb. subst b. reflexivity.
Qed.

(** Whatever [hexify] writes for [n] bytes is the digits of those bytes and
    the closing NUL. *)
Lemma hexify_some (bin : list byte) (n : nat) (digits : list byte) :
  hexify bin n = Some digits -> digits = hex_pairs (firstn n bin) ++ [x00].
Proof.
  revert bin digits. induction n as [| n IH]; intros bin digits; cbn [hexify].
  - intros [= ?]; subst. reflexivity.
  - destruct bin as [| b bin]; [discriminate |].
    destruct (hexify bin n) as [hex |] eqn:Hhex; [| discriminate].
    intros [= ?]; subst. rewrite (IH bin hex Hhex).
    change (firstn (S n) (b :: bin)) with (b :: firstn n bin).
    rewrite hex_pairs_cons. destruct (hexify_byte b) as [-> ->]. reflexivity.
Qed.

Lemma cstr_hex_pairs (bin rest : list byte) :
  cstr (hex_pairs bin ++ x00 :: rest) = hex_pairs bin.
Proof.
  generalize (hex_pairs_digits bin). generalize (hex_pairs bin) as l.
  induction l as [| c l IH]; cbn [forallb app cstr]; [reflexivity |].
  intros H. apply andb_true_iff in H as [Hc Hl].
  destruct (is_nul c) eqn:Hnul.
  - apply is_nul_spec in Hnul. subst c. discriminate Hc.
  - rewrite (IH Hl). reflexivity.
Qed.

(** What [%s] prints of a block [hexify] has filled. *)
Lemma fmt_s_hexified (hex bin : list byte) (n : nat) (digits : list byte) :
  hexify bin n = Some digits ->
  fmt_s (overwrite hex digits) = string_of_list_byte (hex_pairs (firstn n bin)).
Proof.
  intros H. apply hexify_some in H. subst digits.
  unfold fmt_s, overwrite. rewrite <- app_assoc. cbn [app].
  rewrite cstr_hex_pairs. reflexivity.
Qed.

Lemma hexify_none (bin : list byte) (n : nat) :
  hexify bin n = None -> (length bin < n)%nat.
Proof.
  revert bin. induction n as [| n IH]; intros bin; cbn [hexify]; [discriminate |].
  destruct bin as [| b bin]; [cbn; lia |].
  destruct (hexify bin n) eqn:Hhex; [discriminate |].
  intros _. apply IH in Hhex. cbn [length]. lia.
Qed.

Lemma hexify_length (bin : list byte) (n : nat) (digits : list byte) :
  hexify bin n = Some digits -> (length digits <= 2 * n + 1)%nat.
Proof.
  intros H. apply hexify_some in H. subst digits.
  rewrite length_app, hex_pairs_length, length_firstn. cbn [length]. lia.
Qed.

Lemma to_uint_small (z : Z) : 0 <= z < 2 ^ 32 -> to_uint z = z.
Proof. intros H. unfold to_uint. apply Z.mod_small. exact H. Qed.

(** ** More on [hexify] and on wiping *)

Lemma hex_pairs_app (a b : list byte) : hex_pairs (a ++ b) = hex_pairs a ++ hex_pairs b.
Proof. unfold hex_pairs. apply flat_map_app. Qed.

(** [hexify] on a count within the input writes the digits of that many
    bytes and the NUL, the NUL alone for the count 0; a count beyond the
    input has it read past the end. *)
Theorem hexify_takes_a_prefix (bin : list byte) (n : nat) :
  ((n <= length bin)%nat ->
   hexify bin n = Some (hex_pairs (firstn n bin) ++ [x00])) /\
  ((length bin < n)%nat -> hexify bin n = None) /\
  hexify bin 0 = Some [x00].
Proof.
  split; [| split; [| reflexivity]].
  - intros Hle. destruct (hexify bin n) as [digits |] eqn:Hhex.
    + rewrite (hexify_some _ _ _ Hhex). reflexivity.
    + apply hexify_none in Hhex. lia.
  - revert bin. induction n as [| n IH]; intros bin Hlt; [lia |].
    cbn [hexify]. destruct bin as [| b bin]; [reflexivity |].
    cbn [length] in Hlt. rewrite IH by lia. reflexivity.
Qed.

(** The digits of a concatenation are the digits of its parts, in order. *)
Theorem hexify_app (a b : list byte) :
  hexify (a ++ b) (length a + length b) = Some (hex_pairs a ++ hex_pairs b ++ [x00]).
Proof.
  rewrite <- length_app, hexify_whole, hex_pairs_app, <- app_assoc. reflexivity.
Qed.

Lemma cstr_nul_free (l rest : list byte) :
  forallb (fun b => negb (is_nul b)) l = true -> cstr (l ++ x00 :: rest) = l.
Proof.
  induction l as [| b l IH]; cbn [forallb app cstr]; [reflexivity |].
  intros H. apply andb_true_iff in H as [Hb Hl].
  destruct (is_nul b); [discriminate Hb |]. rewrite (IH Hl). reflexivity.
Qed.

Lemma memset_string (l rest : list byte) :
  memset (l ++ rest) (Z.of_nat (length l)) = repeat x00 (length l) ++ rest.
Proof.
  unfold memset. rewrite Nat2Z.id, length_app, skipn_app, skipn_all, Nat.sub_diag.
  replace (Nat.min (length l) (length l + length rest)) with (length l) by lia.
  reflexivity.
Qed.

Lemma forallb_repeat_nul (n : nat) (rest : list byte) :
  forallb is_nul (repeat x00 n ++ rest) = forallb is_nul rest.
Proof. induction n as [| n IH]; [reflexivity | exact IH]. Qed.

Lemma repeat_snoc (b : byte) (n : nat) (rest : list byte) :
  repeat b n ++ b :: rest = repeat b (S n) ++ rest.
Proof. induction n as [| n IH]; cbn [repeat app]; [| rewrite IH]; reflexivity. Qed.

(** The block of an entry without NUL byte, wiped over the length of its
    string, holds zero bytes where the line and its NUL were; what follows
    them in the block is not touched. *)
Lemma wiped_entry (line rest : list byte) :
  forallb (fun b => negb (is_nul b)) line = true ->
  let p := chomp (line ++ x00 :: rest) (Z.of_nat (length line)) in
  memset p (strlen p) = repeat x00 (S (length line)) ++ rest.
Proof.
  intros Hfree. cbv zeta.
  destruct (rev line) as [| b front] eqn:Hrev.
  - assert (line = []) as -> by (rewrite <- (rev_involutive line), Hrev; reflexivity).
    reflexivity.
  - assert (Hline : line = rev front ++ [b])
      by (rewrite <- (rev_involutive line), Hrev; reflexivity).
    subst line. rewrite chomp_snoc. unfold strlen.
    rewrite forallb_app in Hfree. apply andb_true_iff in Hfree as [Hfront Hb].
    rewrite length_app. cbn [length].
    destruct (Byte.eqb b x0a).
    + rewrite (cstr_nul_free _ (x00 :: rest) Hfront), memset_string.
      rewrite !repeat_snoc. f_equal. f_equal. lia.
    + change (rev front ++ b :: x00 :: rest) with (rev front ++ [b] ++ x00 :: rest).
      rewrite app_assoc.
      assert (Hall : forallb (fun b => negb (is_nul b)) (rev front ++ [b]) = true)
        by (rewrite forallb_app, Hfront, Hb; reflexivity).
      rewrite (cstr_nul_free _ rest Hall), memset_string, length_app.
      cbn [length]. rewrite repeat_snoc. reflexivity.
Qed.

Lemma to_uint_le (z : Z) : 0 <= z -> to_uint z <= z.
Proof. intros H. unfold to_uint. apply Z.mod_le; lia. Qed.

(** A digit block of the size [main] asks for, filled by [hexify] without
    overflow and wiped as [main] wipes it, holds zero bytes only. *)
Lemma wiped_digits (fresh bin digits : list byte) (n : Z) :
  0 <= n < 2 ^ 32 ->
  length fresh = Z.to_nat (to_uint (n * 2 + 1)) ->
  (Z.to_nat n <= length bin)%nat ->
  hexify bin (Z.to_nat n) = Some digits ->
  (length digits <=? length fresh)%nat = true ->
  forallb is_nul (memset (overwrite fresh digits) (to_uint (2 * n))) = true.
Proof.
  intros Hn Hfresh Hbin Hhex Hfits.
  apply hexify_some in Hhex. apply Nat.leb_le in Hfits.
  assert (Hlen : length digits = (2 * Z.to_nat n + 1)%nat).
  { subst digits. rewrite length_app, hex_pairs_length, length_firstn.
    cbn [length]. lia. }
  pose proof (to_uint_le (n * 2 + 1) ltac:(lia)) as Hle.
  assert (Hsmall : n * 2 + 1 < 2 ^ 32).
  { assert (to_uint (n * 2 + 1) < 2 ^ 32)
      by (unfold to_uint; apply Z.mod_pos_bound; lia).
    lia. }
  assert (Hfresh' : length fresh = length digits) by lia.
  unfold overwrite. rewrite <- Hfresh', skipn_all, app_nil_r.
  rewrite (to_uint_small (2 * n)) by lia.
  subst digits.
  replace (2 * n) with (Z.of_nat (length (hex_pairs (firstn (Z.to_nat n) bin)))).
  - rewrite memset_string, forallb_repeat_nul. reflexivity.
  - rewrite hex_pairs_length, length_firstn. lia.
Qed.

(** ** Running [main] on an arbitrary environment *)

#[local] Arguments to_uint : simpl never.
#[local] Arguments to_int : simpl never.
#[local] Arguments memset : simpl never.
#[local] Arguments strlen : simpl never.
#[local] Arguments strcmp : simpl never.
#[local] Arguments load : simpl never.
#[local] Arguments store : simpl never.
#[local] Arguments overwrite : simpl never.
#[local] Arguments hexify : simpl never.
#[local] Arguments fmt_d : simpl never.
#[local] Arguments fmt_s : simpl never.
#[local] Arguments String.append : simpl never.
#[local] Arguments split_line : simpl never.
#[local] Arguments firstn : simpl never.
#[local] Arguments skipn : simpl never.
#[local] Arguments seq : simpl never.
#[local] Arguments Z.to_nat : simpl never.
#[local] Arguments Z.of_nat : simpl never.
#[local] Arguments bind {A B} m k w /.

Lemma of_nat_ltb0 (n : nat) : (Z.of_nat n <? 0) = false.
Proof. apply Z.ltb_ge. lia. Qed.

(** The option loop either returns, the iteration count as it was, both
    lengths within [unsigned int] and the world untouched, or it ends the
    process after one text: the usage, the version, or the hint at --help,
    which follows the library's own report where it rejected the option. *)
Definition said (w : world) (f : file) (text : string) : world :=
  {| w_termios := w_termios w; w_stdin := w_stdin w; w_tty := w_tty w;
     w_random := w_random w; w_tcsetattr_calls := w_tcsetattr_calls w;
     w_trace := w_trace w ++ [EvWrite f text] |}.

Inductive options_result (e : env) (c : Z) (w : world) :
  result (Z * Z * Z) * world -> Prop :=
| OptionsReturn buflen saltlen :
    0 <= buflen < 2 ^ 32 -> 0 <= saltlen < 2 ^ 32 ->
    options_result e c w (Ret (c, buflen, saltlen), w)
| OptionsHelp :
    options_result e c w (Halt (Exited 0), said w F_stdout (usage_text e))
| OptionsVersion :
    options_result e c w
      (Halt (Exited 0),
       said w F_stdout
         (progname +++ " (" +++ PACKAGE_NAME e +++ ") " +++ PACKAGE_VERSION e +++ nl))
| OptionsBad :
    options_result e c w
      (Halt (Exited 1),
       said w F_stderr ("Try ``grub-scrypt --help'' for more information." +++ nl))
| OptionsRejected :
    options_result e c w
      (Halt (Exited 1),
       said (said w F_stderr (e_getopt_says e +++ nl)) F_stderr
         ("Try ``grub-scrypt --help'' for more information." +++ nl)).

(** One turn of the loop, by the result of [getopt_long]. *)
Lemma options_loop_cons e c' optarg opts c buflen saltlen w :
  options_loop e ((c', optarg) :: opts) c buflen saltlen w =
  if c' =? char "?" then
    (Halt (Exited 1), said (said w F_stderr (e_getopt_says e +++ nl)) F_stderr hint_text)
  else if c' =? char "c" then options_loop e opts c buflen saltlen w
  else if c' =? char "l" then options_loop e opts c (to_uint optarg) saltlen w
  else if c' =? char "s" then options_loop e opts c buflen (to_uint optarg) w
  else if c' =? char "h" then (Halt (Exited 0), said w F_stdout (usage_text e))
  else if c' =? char "V" then (Halt (Exited 0), said w F_stdout (version_text e))
  else (Halt (Exited 1), said w F_stderr hint_text).
Proof.
  cbn [options_loop]. unfold getopt_long_reports.
  destruct (Z.eqb_spec c' (char "?")) as [-> |]; [reflexivity |].
  cbn [bind ret].
  destruct (c' =? char "c"); [reflexivity |].
  destruct (c' =? char "l"); [reflexivity |].
  destruct (c' =? char "s"); [reflexivity |].
  destruct (c' =? char "h"); [reflexivity |].
  destruct (c' =? char "V"); reflexivity.
Qed.

Lemma to_uint_range (z : Z) : 0 <= to_uint z < 2 ^ 32.
Proof. unfold to_uint. apply Z.mod_pos_bound. lia. Qed.

Lemma options_loop_result e opts c buflen saltlen w :
  0 <= buflen < 2 ^ 32 -> 0 <= saltlen < 2 ^ 32 ->
  options_result e c w (options_loop e opts c buflen saltlen w).
Proof.
  revert buflen saltlen.
  induction opts as [| [c' optarg] opts IH]; intros buflen saltlen Hb Hs;
    [cbn [options_loop] | rewrite options_loop_cons].
  - constructor; assumption.
  - destruct (c' =? char "?"); [apply OptionsRejected |].
    destruct (c' =? char "c"); [apply IH; assumption |].
    destruct (c' =? char "l"); [apply IH; [apply to_uint_range | assumption] |].
    destruct (c' =? char "s"); [apply IH; [assumption | apply to_uint_range] |].
    destruct (c' =? char "h"); [apply OptionsHelp |].
    destruct (c' =? char "V"); [apply OptionsVersion | apply OptionsBad].
Qed.

(** The next test of [main], in program order, that the environment decides. *)
Ltac decide_next :=
  match goal with
  | |- context [e_malloc_ok ?e Bufhex] => destruct (e_malloc_ok e Bufhex) eqn:?
  | |- context [e_malloc_ok ?e Buf] => destruct (e_malloc_ok e Buf) eqn:?
  | |- context [e_malloc_ok ?e Salt] => destruct (e_malloc_ok e Salt) eqn:?
  | |- context [e_malloc_ok ?e Salthex] => destruct (e_malloc_ok e Salthex) eqn:?
  | |- context [if e_tcgetattr_ok ?e then _ else _] => destruct (e_tcgetattr_ok e) eqn:?
  | |- context [if e_tcsetattr_ok ?e 0%nat then _ else _] =>
      destruct (e_tcsetattr_ok e 0%nat) eqn:?
  | |- context [match split_line ?i with _ => _ end] =>
      let l := fresh "line" in
      let r := fresh "rest" in
      destruct (split_line i) as [[l r] |] eqn:?
  | |- context [strcmp ?a ?b =? 0] => destruct (strcmp a b =? 0) eqn:?
  | |- context [if negb (e_known_rng ?e) then _ else _] => destruct (e_known_rng e) eqn:?
  | |- context [if e_random_opens ?e then _ else _] => destruct (e_random_opens e) eqn:?
  | |- context [negb (Z.of_nat ?n =? ?s)] => destruct (Z.of_nat n =? s) eqn:?
  | |- context [e_pbkdf2 ?e ?p ?s ?c ?n] =>
      let err := fresh "err" in
      let dk := fresh "dk" in
      destruct (e_pbkdf2 e p s c n) as [err dk] eqn:?
  | |- context [negb (?err =? 0)] => destruct (err =? 0) eqn:?
  | |- context [match hexify ?b ?n with _ => _ end] =>
      let d := fresh "digits" in
      destruct (hexify b n) as [d |] eqn:?
  | |- context [if (?a <=? ?b)%nat then _ else _] => destruct (a <=? b)%nat eqn:?
  end.

(** Every path of [main] from the end of the option loop on. *)
Ltac all_paths :=
  unfold malloc, getline, take_line, fopen, fread, fclose, call_hexify,
    grub_crypto_pbkdf2, tcgetattr, tcsetattr;
  repeat (cbn; rewrite ?of_nat_ltb0; try decide_next).

(** The run of [e] named, and the four ways the option loop can end. *)
Ltac start_run e :=
  unfold status_of, trace_of, final_termios;
  let r := fresh "r" in
  let Hr := fresh "Hr" in
  let Hres := fresh "Hres" in
  remember (run e) as r eqn:Hr; revert Hr;
  unfold run, main;
  pose proof (options_loop_result e (e_getopt e) 10000 64 64 (initial_world e)
                ltac:(lia) ltac:(lia)) as Hres;
  cbn [bind];
  let Hb := fresh "Hbuflen" in
  let Hs := fresh "Hsaltlen" in
  destruct Hres as [? ? Hb Hs | | | |]; unfold said.

(** What the loop returns, and which option ends it. *)
Lemma options_loop_lengths e opts c buflen saltlen w r w' :
  options_loop e opts c buflen saltlen w = (Ret r, w') ->
  r = (c, length_option (char "l") buflen opts, length_option (char "s") saltlen opts).
Proof.
  revert buflen saltlen.
  induction opts as [| [c' optarg] opts IH]; intros buflen saltlen;
    [cbn [options_loop length_option]
    | rewrite options_loop_cons; cbn [length_option]].
  - intros [= <- _]. reflexivity.
  - destruct (Z.eqb_spec c' (char "?")) as [-> |]; [discriminate |].
    destruct (Z.eqb_spec c' (char "c")) as [-> |];
      [intros H; apply IH in H; exact H |].
    destruct (Z.eqb_spec c' (char "l")) as [-> |];
      [intros H; apply IH in H; exact H |].
    destruct (Z.eqb_spec c' (char "s")) as [-> |];
      [intros H; apply IH in H; exact H |].
    destruct (c' =? char "h"); [discriminate |].
    destruct (c' =? char "V"); discriminate.
Qed.

Lemma options_loop_decisive e opts c buflen saltlen w :
  match first_decisive opts with
  | None => exists r, options_loop e opts c buflen saltlen w = (Ret r, w)
  | Some code =>
      options_loop e opts c buflen saltlen w =
      if code =? char "h" then (Halt (Exited 0), said w F_stdout (usage_text e))
      else if code =? char "V" then (Halt (Exited 0), said w F_stdout (version_text e))
      else if code =? char "?" then
        (Halt (Exited 1), said (said w F_stderr (e_getopt_says e +++ nl)) F_stderr hint_text)
      else (Halt (Exited 1), said w F_stderr hint_text)
  end.
Proof.
  revert buflen saltlen.
  induction opts as [| [c' optarg] opts IH]; intros buflen saltlen;
    [cbn [options_loop first_decisive]
    | rewrite options_loop_cons; cbn [first_decisive]].
  - eexists. reflexivity.
  - destruct (Z.eqb_spec c' (char "?")) as [-> | Hne]; [reflexivity |].
    apply Z.eqb_neq in Hne.
    destruct (c' =? char "c"); [apply IH |].
    destruct (c' =? char "l"); [apply IH |].
    destruct (c' =? char "s"); [apply IH |].
    cbn [orb].
    destruct (c' =? char "h"); [reflexivity |].
    destruct (c' =? char "V"); [reflexivity |].
    rewrite Hne. reflexivity.
Qed.

(** The run of [e] named, with the lengths the option loop returns. *)
Ltac start_run_with_lengths e :=
  unfold status_of, trace_of, final_termios;
  let r := fresh "r" in
  let Hr := fresh "Hr" in
  let Hres := fresh "Hres" in
  let Hlen := fresh "Hlen" in
  remember (run e) as r eqn:Hr; revert Hr;
  unfold run, main;
  pose proof (options_loop_result e (e_getopt e) 10000 64 64 (initial_world e)
                ltac:(lia) ltac:(lia)) as Hres;
  pose proof (options_loop_lengths e (e_getopt e) 10000 64 64 (initial_world e)) as Hlen;
  revert Hlen;
  cbn [bind];
  let Hb := fresh "Hbuflen" in
  let Hs := fresh "Hsaltlen" in
  destruct Hres as [? ? Hb Hs | | | |]; unfold said; intros Hlen;
  [specialize (Hlen _ _ eq_refl); injection Hlen as Hlen_l Hlen_s | | | |].

Ltac lengths_in_context :=
  repeat match goal with
  | H : context [length (overwrite _ _)] |- _ => rewrite overwrite_length in H
  | H : context [length (firstn _ _)] |- _ => rewrite length_firstn in H
  | H : context [length (map _ _)] |- _ => rewrite length_map in H
  | H : context [length (seq _ _)] |- _ => rewrite length_seq in H
  end.

Ltac fold_chomp H :=
  repeat match type of H with
  | context [if (1 <=? ?nr) && Byte.eqb (load ?p (?nr - 1)) x0a
             then store ?p (?nr - 1) x00 else ?p] =>
      change (if (1 <=? nr) && Byte.eqb (load p (nr - 1)) x0a
              then store p (nr - 1) x00 else p) with (chomp p nr) in H
  end.

(** A text is not among those written when its first character differs from
    the first character of each of them. *)
Ltac not_written :=
  let Hin := fresh "Hin" in
  intros Hin; cbn in Hin;
  repeat (destruct Hin as [Hin | Hin];
          [apply (f_equal (String.get 0)) in Hin; lazy in Hin; discriminate Hin |]);
  exact Hin.

Lemma echo_off_modified (t : termios) : echo_on (modified t) = false.
Proof.
  unfold echo_on, modified, set_lflag. cbn [c_lflag].
  rewrite Z.land_spec. change (Z.lnot (Z.lor ECHO ISIG)) with (Z.lnot 9).
  rewrite Z.lnot_spec by lia. change (Z.testbit 9 3) with true.
  apply andb_false_r.
Qed.

(** ** The confirmation *)

(** C3, as amended. The confirmation compares the two entries as C strings:
    whenever the two lines read, each without its trailing newline, differ
    somewhere before their first NUL byte, the run ends with status 1 and
    the single diagnostic "Passwords don't match", prints no credential line
    and never calls the derivation. *)
Theorem mismatch_is_fatal (e : env) (first second : list byte) :
  reads (trace_of e) = [Some first; Some second] ->
  cstr (strip_newline first) <> cstr (strip_newline second) ->
  status_of e = Exited 1 /\
  written F_stderr (trace_of e) = [mismatch_message] /\
  filter is_credential (written F_stdout (trace_of e)) = [] /\
  derivations (trace_of e) = [].
Proof.
  start_run e.
  all: all_paths.
  all: intros ->; cbn.
  all: try discriminate.
  all: intros H Hdiff; injection H as <- <-.
  all: try (repeat split; reflexivity).
  all: exfalso; apply Hdiff.
  all: match goal with
       | Hcmp : (strcmp _ _ =? 0) = true |- _ =>
           apply Z.eqb_eq, strcmp_zero in Hcmp; fold_chomp Hcmp;
           rewrite !cstr_chomp in Hcmp; exact Hcmp
       end.
Qed.

Lemma mismatch_is_fatal_witness :
  reads (trace_of env_mismatch) =
    [Some (bytes ("hunter2" +++ nl)); Some (bytes ("hunter3" +++ nl))] /\
  status_of env_mismatch = Exited 1 /\
  written F_stderr (trace_of env_mismatch) = [mismatch_message] /\
  filter is_credential (written F_stdout (trace_of env_mismatch)) = [] /\
  derivations (trace_of env_mismatch) = [].
Proof.
  split; [reflexivity |].
  apply (mismatch_is_fatal env_mismatch
           (bytes ("hunter2" +++ nl)) (bytes ("hunter3" +++ nl))).
  - reflexivity.
  - vm_compute. discriminate.
Defined.

(** C3, as the specification words it, fails: the entries [a NUL b] and
    [a NUL c] differ in a byte, yet the run accepts them as equal, exits
    with status 0 and prints a credential. *)
Lemma bytes_after_nul_are_not_compared : ~ byte_for_byte_confirmation env_nul.
Proof.
  intros Hclaim.
  destruct (Hclaim [x61; x00; x62; x0a] [x61; x00; x63; x0a]) as [Hstatus _].
  - reflexivity.
  - vm_compute. discriminate.
  - vm_compute in Hstatus. discriminate Hstatus.
Qed.

(** C10, as amended. When both entries are a lone newline, the run does not
    report a mismatch and goes on to open the random device; and when the
    device opens and holds as many bytes as the salt is long, the derivation
    is called, once, with the empty password, that salt, 10000 iterations
    and the output length of the options. *)
Theorem empty_password_is_derived (e : env) :
  reads (trace_of e) = [Some [x0a]; Some [x0a]] ->
  ~ In mismatch_message (written F_stderr (trace_of e)) /\
  In (EvFopen F_random (e_random_opens e)) (trace_of e) /\
  (e_random_opens e = true ->
   (Z.to_nat (length_option (char "s") 64 (e_getopt e)) <= length (e_random e))%nat ->
   exists err,
     derivations (trace_of e) =
       [EvPbkdf2 []
          (firstn (Z.to_nat (length_option (char "s") 64 (e_getopt e))) (e_random e))
          10000 (length_option (char "l") 64 (e_getopt e)) err]).
Proof.
  start_run_with_lengths e.
  all: all_paths.
  all: intros ->; cbn.
  all: try discriminate.
  all: intros H; injection H as -> ->.
  all: try match goal with
       | Hcmp : (strcmp _ _ =? 0) = false |- _ => discriminate Hcmp
       end.
  all: split; [not_written |].
  all: split; [repeat (first [left; reflexivity | right]) |].
  all: intros Hopens Henough; try discriminate Hopens.
  all: rewrite <- ?Hlen_l, <- ?Hlen_s in *.
  all: try match goal with
       | Hshort : (Z.of_nat _ =? _) = false |- _ =>
           exfalso; apply Z.eqb_neq in Hshort; apply Hshort;
           rewrite length_firstn; lia
       end.
  all: eexists; rewrite firstn_overwrite by (rewrite length_firstn; lia); reflexivity.
Qed.

Lemma empty_password_is_derived_witness :
  reads (trace_of env_empty) = [Some [x0a]; Some [x0a]] /\
  ~ In mismatch_message (written F_stderr (trace_of env_empty)) /\
  exists err,
    derivations (trace_of env_empty) = [EvPbkdf2 [] [x00; x01; x02; x03] 10000 4 err].
Proof.
  split; [reflexivity |].
  destruct (empty_password_is_derived env_empty eq_refl) as (Hsame & _ & Hderived).
  split; [exact Hsame |].
  apply Hderived.
  - reflexivity.
  - vm_compute. lia.
Defined.

(** C10, as the specification words it, fails: Return is pressed twice, the
    entries are accepted, but the random device does not open and no key is
    derived. *)
Lemma no_salt_no_derivation : ~ empty_entries_are_derived env_empty_no_random.
Proof.
  intros Hclaim.
  destruct (Hclaim eq_refl) as (_ & salt & c & buflen & err & Hcall).
  vm_compute in Hcall. discriminate Hcall.
Qed.

(** ** The terminal *)

(** C4, as amended. When the call that modifies the terminal attributes
    succeeded, it cleared the echo flag of the attributes the terminal had
    before the run, and [main] installs those saved attributes again exactly
    once: after the first read when that read fails, and otherwise only
    after the second read, whether it succeeds or not, so that both reads
    happen without echo.  When that restoring call succeeds, the terminal
    ends the run with the attributes it had before. *)
Theorem terminal_restored_once (e : env) (f : file) (t : termios) :
  hd_error (tcsetattrs (trace_of e)) = Some (EvTcsetattr f t true) ->
  let restore := EvTcsetattr f (e_termios e) (e_tcsetattr_ok e 1%nat) in
  t = modified (e_termios e) /\
  echo_on t = false /\
  (tty_events (trace_of e) = [EvTcsetattr f t true; EvGetline F_stdin None; restore] \/
   exists line second,
     tty_events (trace_of e) =
       [EvTcsetattr f t true; EvGetline F_stdin (Some line);
        EvGetline F_stdin second; restore]) /\
  (e_tcsetattr_ok e 1%nat = true -> final_termios e = e_termios e).
Proof.
  start_run e.
  all: all_paths.
  all: intros ->; cbn.
  all: try discriminate.
  all: intros H; injection H as <- <-.
  all: (split; [reflexivity |]).
  all: (split; [apply echo_off_modified |]).
  all: split; [| intros ->; reflexivity].
  all: try (left; reflexivity).
  all: right; eexists; eexists; reflexivity.
Qed.

Lemma terminal_restored_once_witness :
  hd_error (tcsetattrs (trace_of env_success)) =
    Some (EvTcsetattr F_tty (modified sample_termios) true) /\
  tty_events (trace_of env_success) =
    [EvTcsetattr F_tty (modified sample_termios) true;
     EvGetline F_stdin (Some (bytes ("hunter2" +++ nl)));
     EvGetline F_stdin (Some (bytes ("hunter2" +++ nl)));
     EvTcsetattr F_tty sample_termios true] /\
  final_termios env_success = sample_termios.
Proof.
  split; [reflexivity |].
  destruct (terminal_restored_once env_success F_tty (modified sample_termios))
    as (_ & _ & _ & Hfinal).
  - reflexivity.
  - split; [reflexivity | apply Hfinal; reflexivity].
Defined.

(** C4, as the specification words it, fails: on a run with two good reads
    the first read is followed by the second prompt and the second read, with
    no restoration in between. *)
Lemma no_restoration_between_reads : ~ restored_after_both_reads env_success.
Proof.
  intros Hclaim.
  destruct (Hclaim F_tty (modified sample_termios)) as [Hrestored _].
  - reflexivity.
  - vm_compute in Hrestored. discriminate Hrestored.
Qed.

(** ** The streams of the dialogue *)

(** C5, as amended. Whether or not the terminal device opens, every line is
    read from standard input and both prompts are written to standard
    output (all other texts go to standard output or standard error); the
    terminal device when it opens, standard input otherwise, is only what
    [tcgetattr] and [tcsetattr] are called on. *)
Theorem dialogue_uses_standard_streams (e : env) :
  Forall (fun ev =>
            match ev with
            | EvGetline f _ => f = F_stdin
            | EvWrite f text =>
                (f = F_stdout \/ f = F_stderr) /\ (is_prompt text = true -> f = F_stdout)
            | EvTcgetattr f _ | EvTcsetattr f _ _ =>
                f = if e_tty_opens e then F_tty else F_stdin
            | _ => True
            end) (trace_of e).
Proof.
  start_run e.
  all: all_paths.
  all: intros ->; cbn.
  all: repeat (constructor;
    [first [ exact I
           | reflexivity
           | split; [left; reflexivity | reflexivity]
           | split; [right; reflexivity
                    | let H := fresh in
                      intros H; rewrite line_is_no_prompt in H; discriminate H]
           | split; [right; reflexivity
                    | let H := fresh in intros H; lazy in H; discriminate H] ] |]).
  all: constructor.
Qed.

(** C5, as the specification words it, fails: the terminal device opens and
    a password is typed there, yet the lines are read from standard input. *)
Lemma terminal_input_is_not_read : ~ terminal_is_preferred env_tty.
Proof.
  unfold terminal_is_preferred. rewrite Forall_forall. intros Hclaim.
  specialize (Hclaim (EvGetline F_stdin (Some (bytes ("piped" +++ nl))))).
  cbv beta iota in Hclaim.
  assert (Hread : F_stdin = (if e_tty_opens env_tty then F_tty else F_stdin)).
  { apply Hclaim. vm_compute. repeat (first [left; reflexivity | right]). }
  vm_compute in Hread. discriminate Hread.
Qed.

(** What that run does: both lines come from standard input, nothing is
    written to the terminal, and the key is derived from what was piped in. *)
Example run_with_piped_password :
  e_tty_opens env_tty = true /\
  filter is_getline (trace_of env_tty) =
    [EvGetline F_stdin (Some (bytes ("piped" +++ nl)));
     EvGetline F_stdin (Some (bytes ("piped" +++ nl)))] /\
  written F_tty (trace_of env_tty) = [] /\
  derivations (trace_of env_tty) =
    [EvPbkdf2 (bytes "piped") [x00; x01; x02; x03] 10000 4 0].
Proof. repeat split; vm_compute; reflexivity. Qed.

(** ** The output *)

(** A run that exits with status 0 after a derivation got 0 back from it and
    printed the prompts, the warning where it applies, and the credential
    line for the count and salt it passed and the key block it got; a run
    that ends otherwise printed no credential line; a run that wrote a
    diagnostic exits with status 1. *)
Lemma stdout_of_a_run (e : env) :
  (forall password salt c buflen err,
     derivations (trace_of e) = [EvPbkdf2 password salt c buflen err] ->
     status_of e = Exited 0 ->
     err = 0 /\
     written F_stdout (trace_of e) =
       prompts ++ warning e ++
       [credential_line c salt (key_buffer e password salt c buflen)]) /\
  (status_of e <> Exited 0 ->
     filter is_credential (written F_stdout (trace_of e)) = []) /\
  (written F_stderr (trace_of e) <> [] -> status_of e = Exited 1).
Proof.
  start_run e.
  all: all_paths.
  all: intros ->; cbn.
  all: split;
    [| split; intros Hne; first [exfalso; apply Hne; reflexivity | reflexivity]].
  all: intros password salt c buflen0 err0 Hcall Hstatus;
    try discriminate Hcall; try discriminate Hstatus.
  all: injection Hcall as <- <- <- <- <-.
  all: split; [apply Z.eqb_eq; assumption |].
  all: unfold credential_line, key_buffer, prompts, warning.
  all: repeat match goal with
       | Hhex : hexify _ _ = Some _ |- _ =>
           rewrite (fmt_s_hexified _ _ _ _ Hhex); clear Hhex
       end.
  all: repeat match goal with
       | Heq : e_pbkdf2 _ _ _ _ _ = _ |- _ => rewrite Heq; clear Heq
       | Heq : e_known_rng _ = _ |- _ => rewrite Heq; clear Heq
       end.
  all: reflexivity.
Qed.

(** Once the derivation has answered 0, only a length of 2^31 or more, for
    which the size of a digit block wraps around, keeps the run from status
    0. *)
Lemma successful_derivation_exits_zero
    (e : env) (password salt : list byte) (c buflen : Z) :
  derivations (trace_of e) = [EvPbkdf2 password salt c buflen 0] ->
  buflen < 2 ^ 31 -> Z.of_nat (length salt) < 2 ^ 31 ->
  status_of e = Exited 0.
Proof.
  start_run e.
  all: all_paths.
  all: intros ->; cbn.
  all: intros Hcall; try discriminate Hcall.
  all: injection Hcall as <- <- <- <- ->; intros Hb Hs.
  all: try reflexivity.
  all: try match goal with
       | Herr : (0 =? 0) = false |- _ => discriminate Herr
       end.
  all: repeat match goal with
       | Hfull : (Z.of_nat _ =? _) = true |- _ => apply Z.eqb_eq in Hfull
       | Hnone : hexify _ _ = None |- _ => apply hexify_none in Hnone
       | Hsome : hexify _ _ = Some _ |- _ => apply hexify_length in Hsome
       | Hover : (_ <=? _)%nat = false |- _ => apply Nat.leb_gt in Hover
       end.
  all: repeat match goal with
       | H : context [length (overwrite _ _)] |- _ => rewrite overwrite_length in H
       | H : context [length (firstn _ _)] |- _ => rewrite length_firstn in H
       | H : context [length (map _ _)] |- _ => rewrite length_map in H
       | H : context [length (seq _ _)] |- _ => rewrite length_seq in H
       end.
  all: try match goal with
       | Hover : (Z.to_nat (to_uint ?z) < _)%nat |- _ => pose proof (to_uint_small z)
       end.
  all: exfalso; lia.
Qed.

(** Each failure other than the two of the salt ends the run with status 1
    after the one diagnostic [main] has for it. *)
Lemma failure_exits_one (e : env) (k : failure) :
  k <> EntropyError -> failed e k ->
  status_of e = Exited 1 /\
  exists msg, written F_stderr (trace_of e) = [msg] /\
              string_prefix (diagnostic k) msg = true.
Proof.
  unfold failed.
  start_run e.
  all: all_paths.
  all: intros ->; cbn.
  all: intros Hk Hfailed.
  all: destruct k; try (exfalso; apply Hk; reflexivity).
  all: try solve [split; [reflexivity | eexists; split; reflexivity]].
  all: exfalso.
  all: try (destruct Hfailed as (b & size & Hin);
            repeat (destruct Hin as [Hin | Hin]; [discriminate Hin |]);
            exact Hin).
  all: try (repeat (destruct Hfailed as [Hfailed | Hfailed]; [discriminate Hfailed |]);
            exact Hfailed).
  all: try (destruct Hfailed as (password & salt & c & buflen0 & err0 & Hcall & Herr);
            first [ discriminate Hcall
                  | injection Hcall as <- <- <- <- <-;
                    match goal with
                    | Hzero : (_ =? 0) = true |- _ =>
                        apply Z.eqb_eq in Hzero; contradiction
                    end ]).
  all: destruct Hfailed as (first & second & H & Hdiff); try discriminate H.
  all: injection H as <- <-.
  all: apply Hdiff.
  all: match goal with
       | Hcmp : (strcmp _ _ =? 0) = true |- _ =>
           apply Z.eqb_eq, strcmp_zero in Hcmp; fold_chomp Hcmp;
           rewrite !cstr_chomp in Hcmp; exact Hcmp
       end.
Qed.

(** So does an option that is none of c, l, s, h and V. *)
Lemma bad_option_exits_one (e : env) (code : Z) :
  first_decisive (e_getopt e) = Some code ->
  code <> char "h" -> code <> char "V" ->
  status_of e = Exited 1.
Proof.
  intros Hfirst Hh HV.
  pose proof (options_loop_decisive e (e_getopt e) 10000 64 64 (initial_world e)) as Hloop.
  rewrite Hfirst in Hloop.
  unfold status_of, run, main. cbn [bind]. rewrite Hloop.
  apply Z.eqb_neq in Hh, HV. rewrite Hh, HV.
  destruct (code =? char "?"); reflexivity.
Qed.

(** A run exits with status 0 only after a derivation that answered 0, or
    when the option h or V ended it. *)
Lemma exit_zero_is_earned (e : env) :
  status_of e = Exited 0 ->
  (exists password salt c buflen,
     derivations (trace_of e) = [EvPbkdf2 password salt c buflen 0]) \/
  first_decisive (e_getopt e) = Some (char "h") \/
  first_decisive (e_getopt e) = Some (char "V").
Proof.
  pose proof (options_loop_decisive e (e_getopt e) 10000 64 64 (initial_world e)) as Hloop.
  destruct (first_decisive (e_getopt e)) as [code |] eqn:Hfirst.
  - unfold status_of, run, main. cbn [bind]. rewrite Hloop.
    destruct (Z.eqb_spec code (char "h")) as [-> |]; [intros _; right; left; reflexivity |].
    destruct (Z.eqb_spec code (char "V")) as [-> |]; [intros _; right; right; reflexivity |].
    destruct (code =? char "?"); cbn; discriminate.
  - destruct Hloop as [[[c buflen] saltlen] Hloop].
    intros Hstatus. left. revert Hstatus.
    unfold status_of, trace_of.
    remember (run e) as r eqn:Hr. revert Hr.
    unfold run, main. cbn [bind]. rewrite Hloop.
    all_paths.
    all: intros ->; cbn.
    all: intros Hstatus; try discriminate Hstatus.
    all: match goal with
         | Hzero : (_ =? 0) = true |- _ => apply Z.eqb_eq in Hzero; subst
         end.
    all: do 4 eexists; reflexivity.
Qed.

(** C9, as amended. A run whose derivation answers 0, with lengths below
    2^31, exits with status 0; a run that exits with status 0 after a
    derivation got 0 from it and has printed on standard output the two
    prompts and the newline after the second entry, the warning on a
    platform other than Linux and FreeBSD, and then, last, exactly one
    credential line
    [Your PBKDF2 is grub.pbkdf2.sha512.<iterations>.<SALT_HEX>.<KEY_HEX>]
    for the count and salt passed to the derivation and the key it wrote;
    status 0 is the end of no other run but one that the option h or V
    ended.  A failed allocation, a failed read, a mismatch and a failed
    derivation each end the run with status 1 after the single diagnostic
    [main] has for it, and an option other than c, l, s, h and V ends it
    with status 1 as well; the two failures to obtain the salt are left
    out, they end in an [fclose] without defined behaviour.  A run that ends
    otherwise than with status 0 prints no credential line, and a run that
    writes a diagnostic exits with status 1. *)
Theorem credential_is_the_last_line (e : env) :
  (forall password salt c buflen,
     derivations (trace_of e) = [EvPbkdf2 password salt c buflen 0] ->
     buflen < 2 ^ 31 -> Z.of_nat (length salt) < 2 ^ 31 ->
     status_of e = Exited 0) /\
  (forall password salt c buflen err,
     derivations (trace_of e) = [EvPbkdf2 password salt c buflen err] ->
     status_of e = Exited 0 ->
     err = 0 /\
     written F_stdout (trace_of e) =
       prompts ++ warning e ++
       [credential_line c salt (key_buffer e password salt c buflen)]) /\
  (status_of e = Exited 0 ->
     (exists password salt c buflen,
        derivations (trace_of e) = [EvPbkdf2 password salt c buflen 0]) \/
     first_decisive (e_getopt e) = Some (char "h") \/
     first_decisive (e_getopt e) = Some (char "V")) /\
  (forall k,
     k <> EntropyError -> failed e k ->
     status_of e = Exited 1 /\
     exists msg, written F_stderr (trace_of e) = [msg] /\
                 string_prefix (diagnostic k) msg = true) /\
  (forall code,
     first_decisive (e_getopt e) = Some code ->
     code <> char "h" -> code <> char "V" ->
     status_of e = Exited 1) /\
  (status_of e <> Exited 0 ->
     filter is_credential (written F_stdout (trace_of e)) = []) /\
  (written F_stderr (trace_of e) <> [] -> status_of e = Exited 1).
Proof.
  destruct (stdout_of_a_run e) as (Hline & Hnone & Hfatal).
  split; [| split; [| split; [| split; [| split; [| split]]]]].
  - intros password salt c buflen. apply successful_derivation_exits_zero.
  - exact Hline.
  - apply exit_zero_is_earned.
  - intros k. apply failure_exits_one.
  - apply bad_option_exits_one.
  - exact Hnone.
  - exact Hfatal.
Qed.

Lemma credential_is_the_last_line_witness :
  (status_of env_success = Exited 0 /\
   written F_stdout (trace_of env_success) =
     ["Enter password: "%string; nl +++ "Reenter password: "; nl;
      "Your PBKDF2 is grub.pbkdf2.sha512.10000.00010203.A5A5A5A5" +++ nl]) /\
  (failed env_derivation_fails DerivationError /\
   status_of env_derivation_fails = Exited 1 /\
   written F_stderr (trace_of env_derivation_fails) =
     ["Cryptographic error number 5" +++ nl]).
Proof.
  split.
  - destruct (credential_is_the_last_line env_success) as (Hzero & Hline & _).
    assert (Hstatus : status_of env_success = Exited 0).
    { apply (Hzero (bytes "hunter2") [x00; x01; x02; x03] 10000 4).
      - reflexivity.
      - reflexivity.
      - reflexivity. }
    split; [exact Hstatus |].
    destruct (Hline (bytes "hunter2") [x00; x01; x02; x03] 10000 4 0 eq_refl Hstatus)
      as [_ Hout].
    rewrite Hout. reflexivity.
  - assert (Hfailed : failed env_derivation_fails DerivationError).
    { exists (bytes "hunter2"), [x00; x01; x02; x03], 10000, 4, 5.
      split; [reflexivity | discriminate]. }
    split; [exact Hfailed |].
    destruct (credential_is_the_last_line env_derivation_fails)
      as (_ & _ & _ & Hfatal & _ & _ & _).
    destruct (Hfatal DerivationError ltac:(discriminate) Hfailed) as [Hstatus _].
    split; [exact Hstatus | reflexivity].
Defined.

(** C9, as the specification words it, fails: a successful run has four
    texts on its standard output, three lines in all, of which the
    credential line is the last. *)
Lemma stdout_carries_the_prompts : ~ one_line_on_stdout env_success.
Proof.
  intros [Hsuccess _].
  destruct (Hsuccess (bytes "hunter2") [x00; x01; x02; x03] 10000 4 eq_refl)
    as [_ [key Hout]].
  apply (f_equal (@length string)) in Hout.
  vm_compute in Hout. discriminate Hout.
Qed.

Example lines_of_a_successful_run :
  lines_written F_stdout (trace_of env_success) = 3%nat.
Proof. reflexivity. Qed.

(** ** Runs on which the program and its specification part *)

(** C2. With [-c 5] on the command line the derivation is still called with
    10000 iterations, and 10000 is what the credential line shows: the
    assignment of [case 'c'] goes to the variable of the loop body. *)
Theorem iteration_count_option_is_lost :
  e_getopt env_count = [(char "c", 5); (char "l", 4); (char "s", 4)] /\
  derivations (trace_of env_count) =
    [EvPbkdf2 (bytes "hunter2") [x00; x01; x02; x03] 10000 4 0] /\
  filter is_credential (written F_stdout (trace_of env_count)) =
    ["Your PBKDF2 is grub.pbkdf2.sha512.10000.00010203.A5A5A5A5" +++ nl].
Proof. repeat split; vm_compute; reflexivity. Qed.

(** C1. On the short read the salt block is released while it still holds
    the three random bytes that were read: no [memset] precedes its [free]
    on that branch. *)
Theorem short_read_frees_salt_unwiped :
  freads (trace_of env_short_read) = [EvFread F_random 4 [x11; x22; x33]] /\
  In (EvFree Salt [x11; x22; x33; x00]) (trace_of env_short_read) /\
  releases_zeroized (trace_of env_short_read) = false.
Proof.
  split; [reflexivity |]. split; [| reflexivity].
  vm_compute. repeat (first [left; reflexivity | right]).
Qed.

(** C6. On the short read there is one [fread] and no derivation, but the
    branch closes the stream twice: the second [fclose] has no defined
    behaviour, and the diagnostic and the exit that follow it in the text
    of [main] are not reached. *)
Theorem short_read_closes_stream_twice :
  freads (trace_of env_short_read) = [EvFread F_random 4 [x11; x22; x33]] /\
  derivations (trace_of env_short_read) = [] /\
  filter (fun ev => match ev with EvFclose _ _ => true | _ => false end)
    (trace_of env_short_read) =
    [EvFclose F_random Open; EvFclose F_random Closed] /\
  status_of env_short_read = Undefined "fclose of a closed stream" /\
  written F_stderr (trace_of env_short_read) = [].
Proof. repeat split; vm_compute; reflexivity. Qed.

(** C7. When the random device cannot be opened, the branch calls [fclose]
    on the null stream; the call has no defined behaviour, and the
    diagnostic and the exit that follow it are not reached. *)
Theorem null_stream_is_closed :
  e_random_opens env_no_random = false /\
  filter (fun ev => match ev with EvFclose _ _ => true | _ => false end)
    (trace_of env_no_random) = [EvFclose F_random Null] /\
  status_of env_no_random = Undefined "fclose of a null stream" /\
  written F_stderr (trace_of env_no_random) = [].
Proof. repeat split; vm_compute; reflexivity. Qed.

(** ** What holds on every run *)

(** The derivation is only ever called with 10000 iterations. *)
Theorem iteration_count_is_constant (e : env) :
  Forall (fun ev => match ev with
                    | EvPbkdf2 _ _ c _ _ => c = 10000
                    | _ => True
                    end) (trace_of e).
Proof.
  start_run e.
  all: all_paths.
  all: intros ->; cbn.
  all: repeat constructor.
Qed.

(** When the random device does not open, or its read comes back short,
    the run ends in an [fclose] without defined behaviour: no derivation
    was called and no diagnostic written. *)
Theorem entropy_failure_is_undefined (e : env) :
  In (EvFopen F_random false) (trace_of e) \/
  (exists size data,
     In (EvFread F_random size data) (trace_of e) /\ Z.of_nat (length data) <> size) ->
  (status_of e = Undefined "fclose of a null stream" \/
   status_of e = Undefined "fclose of a closed stream") /\
  derivations (trace_of e) = [] /\
  written F_stderr (trace_of e) = [].
Proof.
  start_run e.
  all: all_paths.
  all: intros ->; cbn.
  all: first
    [ solve [intros _; repeat split; first [left; reflexivity | right; reflexivity]]
    | intros [Hin | (size & data & Hin & Hne)];
      repeat (destruct Hin as [Hin | Hin]; [try discriminate Hin |]);
      try contradiction ].
  all: injection Hin as <- <-.
  all: match goal with
       | Hfull : (Z.of_nat _ =? _) = true |- _ => apply Z.eqb_eq in Hfull; contradiction
       end.
Qed.

Lemma entropy_failure_is_undefined_witness :
  In (EvFopen F_random false) (trace_of env_no_random) /\
  derivations (trace_of env_no_random) = [] /\
  written F_stderr (trace_of env_no_random) = [].
Proof.
  assert (Hin : In (EvFopen F_random false) (trace_of env_no_random))
    by (vm_compute; repeat (first [left; reflexivity | right])).
  split; [exact Hin |].
  apply (entropy_failure_is_undefined env_no_random). left. exact Hin.
Defined.

(** When the derivation returns an error code, the run writes the
    diagnostic with that code and exits with status 1, and the salt and key
    blocks hold zero bytes only when they are freed. *)
Theorem derivation_failure_wipes_salt_and_key
    (e : env) (password salt : list byte) (c buflen err : Z) :
  derivations (trace_of e) = [EvPbkdf2 password salt c buflen err] ->
  err <> 0 ->
  status_of e = Exited 1 /\
  written F_stderr (trace_of e) = ["Cryptographic error number " +++ fmt_d err +++ nl] /\
  Forall (fun ev => match ev with
                    | EvFree Salt content | EvFree Buf content =>
                        forallb is_nul content = true
                    | _ => True
                    end) (trace_of e).
Proof.
  start_run e.
  all: all_paths.
  all: intros ->; cbn.
  all: intros Hcall; try discriminate Hcall.
  all: injection Hcall as <- <- <- <- <-; intros Herr.
  all: try match goal with
       | Hzero : (_ =? 0) = true |- _ => apply Z.eqb_eq in Hzero; contradiction
       end.
  all: split; [reflexivity |].
  all: split; [reflexivity |].
  all: repeat (constructor; [try exact I |]); try constructor.
  all: apply memset_covers; rewrite overwrite_length.
  all: rewrite ?length_firstn, ?length_map, ?length_seq.
  all: try lia.
  all: match goal with
       | Hfull : (Z.of_nat _ =? _) = true |- _ =>
           apply Z.eqb_eq in Hfull; rewrite length_firstn in Hfull; lia
       end.
Qed.

Lemma derivation_failure_wipes_salt_and_key_witness :
  status_of env_derivation_fails = Exited 1 /\
  written F_stderr (trace_of env_derivation_fails) =
    ["Cryptographic error number " +++ fmt_d 5 +++ nl] /\
  Forall (fun ev => match ev with
                    | EvFree Salt content | EvFree Buf content =>
                        forallb is_nul content = true
                    | _ => True
                    end) (trace_of env_derivation_fails).
Proof.
  apply (derivation_failure_wipes_salt_and_key env_derivation_fails
           (bytes "hunter2") [x00; x01; x02; x03] 10000 4 5).
  - reflexivity.
  - discriminate.
Defined.

(** When the read from the random device comes back short, the salt block
    is freed with the bytes that were read still at its start. *)
Theorem short_read_frees_what_was_read (e : env) (size : Z) (data : list byte) :
  freads (trace_of e) = [EvFread F_random size data] ->
  Z.of_nat (length data) <> size ->
  exists rest, In (EvFree Salt (data ++ rest)) (trace_of e).
Proof.
  start_run e.
  all: all_paths.
  all: intros ->; cbn.
  all: intros Hread; try discriminate Hread.
  all: injection Hread as <- <-; intros Hshort.
  all: try match goal with
       | Hfull : (Z.of_nat _ =? _) = true |- _ =>
           apply Z.eqb_eq in Hfull; contradiction
       end.
  all: unfold overwrite; eexists.
  all: repeat (first [left; reflexivity | right]).
Qed.

Lemma short_read_frees_what_was_read_witness :
  exists rest, In (EvFree Salt ([x11; x22; x33] ++ rest)) (trace_of env_short_read).
Proof.
  apply (short_read_frees_what_was_read env_short_read 4 [x11; x22; x33]).
  - reflexivity.
  - vm_compute. discriminate.
Defined.

(** ** The options *)

(** The first option other than c, l and s decides the run, whatever comes
    before or after it: h prints the usage on standard output and V the
    version line, both with status 0; any other one ends the run with
    status 1 and the hint on standard error, which for '?', an option the
    library rejected, follows the library's own report, and for the
    lower-case v of the option string is all there is.  Nothing else has
    happened by then. *)
Theorem deciding_option_ends_the_run (e : env) (code : Z) :
  first_decisive (e_getopt e) = Some code ->
  final_termios e = e_termios e /\
  (code = char "h" ->
     status_of e = Exited 0 /\ trace_of e = [EvWrite F_stdout (usage_text e)]) /\
  (code = char "V" ->
     status_of e = Exited 0 /\ trace_of e = [EvWrite F_stdout (version_text e)]) /\
  (code = char "?" ->
     status_of e = Exited 1 /\
     trace_of e =
       [EvWrite F_stderr (e_getopt_says e +++ nl); EvWrite F_stderr hint_text]) /\
  (code <> char "h" -> code <> char "V" -> code <> char "?" ->
     status_of e = Exited 1 /\ trace_of e = [EvWrite F_stderr hint_text]).
Proof.
  intros Hfirst.
  pose proof (options_loop_decisive e (e_getopt e) 10000 64 64 (initial_world e)) as Hloop.
  rewrite Hfirst in Hloop.
  unfold final_termios, status_of, trace_of, run, main.
  cbn [bind]. rewrite Hloop.
  destruct (Z.eqb_spec code (char "h")) as [-> | Hh].
  - repeat split; try reflexivity; intros; try discriminate; contradiction.
  - destruct (Z.eqb_spec code (char "V")) as [-> | HV].
    + repeat split; try reflexivity; intros; try discriminate; contradiction.
    + destruct (Z.eqb_spec code (char "?")) as [-> | Hq].
      * repeat split; try reflexivity; intros; try discriminate; contradiction.
      * repeat split; try reflexivity; intros; contradiction.
Qed.

Lemma deciding_option_ends_the_run_witness :
  (first_decisive (e_getopt env_lower_v) = Some (char "v") /\
   status_of env_lower_v = Exited 1 /\
   trace_of env_lower_v = [EvWrite F_stderr hint_text]) /\
  (first_decisive (e_getopt env_rejected_option) = Some (char "?") /\
   status_of env_rejected_option = Exited 1 /\
   trace_of env_rejected_option =
     [EvWrite F_stderr ("grub-pbkdf2: invalid option -- 'x'" +++ nl);
      EvWrite F_stderr hint_text]).
Proof.
  split; (split; [reflexivity |]).
  - destruct (deciding_option_ends_the_run env_lower_v (char "v") eq_refl)
      as (_ & _ & _ & _ & Hother).
    apply Hother; discriminate.
  - destruct (deciding_option_ends_the_run env_rejected_option (char "?") eq_refl)
      as (_ & _ & _ & Hrejected & _).
    apply Hrejected. reflexivity.
Defined.

(** Whenever the derivation is called, the output length it is asked for
    and the length of the salt it is given are those of the last -l and -s
    options, as [unsigned int] values, and 64 where the option is absent. *)
Theorem options_set_the_lengths
    (e : env) (password salt : list byte) (c buflen err : Z) :
  derivations (trace_of e) = [EvPbkdf2 password salt c buflen err] ->
  buflen = length_option (char "l") 64 (e_getopt e) /\
  Z.of_nat (length salt) = length_option (char "s") 64 (e_getopt e).
Proof.
  start_run_with_lengths e.
  all: all_paths.
  all: intros ->; cbn.
  all: intros Hcall; try discriminate Hcall.
  all: injection Hcall as <- <- <- <- <-.
  all: split; [exact Hlen_l |].
  all: rewrite <- Hlen_s.
  all: match goal with
       | Hfull : (Z.of_nat _ =? _) = true |- _ => apply Z.eqb_eq in Hfull
       end.
  all: lengths_in_context.
  all: rewrite length_firstn, overwrite_length, length_firstn, length_map, length_seq.
  all: lia.
Qed.

Lemma options_set_the_lengths_witness :
  derivations (trace_of env_repeated_option) =
    [EvPbkdf2 (bytes "hunter2") [x10; x20] 10000 3 0] /\
  3 = length_option (char "l") 64 (e_getopt env_repeated_option) /\
  Z.of_nat (length [x10; x20]) = length_option (char "s") 64 (e_getopt env_repeated_option).
Proof.
  split; [reflexivity |].
  apply (options_set_the_lengths env_repeated_option (bytes "hunter2") [x10; x20] 10000 3 0).
  reflexivity.
Defined.

(** ** Memory *)

(** When an allocation fails the run ends with status 1 and the diagnostic
    "Out of memory", before any prompt, read or terminal call, and the
    blocks allocated until then have each been freed. *)
Theorem out_of_memory_is_fatal (e : env) (b : buffer) (size : Z) :
  In (EvMalloc b size false) (trace_of e) ->
  status_of e = Exited 1 /\
  written F_stderr (trace_of e) = ["Out of memory" +++ nl] /\
  written F_stdout (trace_of e) = [] /\
  tty_events (trace_of e) = [] /\
  forall b', releases b' (trace_of e) = allocations b' (trace_of e).
Proof.
  start_run e.
  all: all_paths.
  all: intros ->; cbn.
  all: intros Hin.
  all: try (repeat split; try reflexivity; intros []; reflexivity).
  all: exfalso.
  all: repeat (destruct Hin as [Hin | Hin]; [discriminate Hin |]).
  all: exact Hin.
Qed.

Lemma out_of_memory_is_fatal_witness :
  In (EvMalloc Salt 4 false) (trace_of env_no_memory) /\
  status_of env_no_memory = Exited 1 /\
  written F_stderr (trace_of env_no_memory) = ["Out of memory" +++ nl] /\
  releases Bufhex (trace_of env_no_memory) = 1%nat /\
  releases Buf (trace_of env_no_memory) = 1%nat /\
  releases Salt (trace_of env_no_memory) = 0%nat.
Proof.
  assert (Hin : In (EvMalloc Salt 4 false) (trace_of env_no_memory))
    by (vm_compute; repeat (first [left; reflexivity | right])).
  split; [exact Hin |].
  destruct (out_of_memory_is_fatal env_no_memory Salt 4 Hin) as (Hs & Herr & _ & _ & Hfree).
  split; [exact Hs |]. split; [exact Herr |].
  rewrite !Hfree. repeat split.
Defined.

(** No block is freed twice or without having been allocated, and when the
    process exits each of the four blocks [main] allocated has been freed. *)
Theorem blocks_are_freed_once (e : env) (b : buffer) :
  (releases b (trace_of e) <= 1)%nat /\
  (b <> Pass1 -> b <> Pass2 ->
     (releases b (trace_of e) <= allocations b (trace_of e))%nat /\
     forall status,
       status_of e = Exited status ->
       releases b (trace_of e) = allocations b (trace_of e)).
Proof.
  start_run e.
  all: all_paths.
  all: intros ->; cbn.
  all: destruct b; cbn.
  all: split; [lia |].
  all: intros H1 H2; try contradiction.
  all: split; [lia |].
  all: intros status Hstatus; first [reflexivity | discriminate Hstatus].
Qed.

(** ** The entries *)

(** When a read delivers nothing, the run ends with status 1 and the
    diagnostic "Failure to read password": no comparison is made, the random
    device is not opened and nothing is derived. *)
Theorem read_failure_is_fatal (e : env) :
  In None (reads (trace_of e)) ->
  status_of e = Exited 1 /\
  written F_stderr (trace_of e) = ["Failure to read password" +++ nl] /\
  filter is_fopen_random (trace_of e) = [] /\
  derivations (trace_of e) = [].
Proof.
  start_run e.
  all: all_paths.
  all: intros ->; cbn.
  all: intros Hin.
  all: try (repeat split; reflexivity).
  all: exfalso.
  all: repeat (destruct Hin as [Hin | Hin]; [discriminate Hin |]).
  all: exact Hin.
Qed.

Lemma read_failure_is_fatal_witness :
  reads (trace_of env_one_entry) = [Some (bytes ("hunter2" +++ nl)); None] /\
  status_of env_one_entry = Exited 1 /\
  written F_stderr (trace_of env_one_entry) = ["Failure to read password" +++ nl] /\
  filter is_fopen_random (trace_of env_one_entry) = [] /\
  derivations (trace_of env_one_entry) = [].
Proof.
  split; [reflexivity |].
  apply (read_failure_is_fatal env_one_entry).
  vm_compute. right. left. reflexivity.
Defined.

Ltac fold_chomp_goal :=
  repeat match goal with
  | |- context [if (1 <=? ?nr) && Byte.eqb (load ?p (?nr - 1)) x0a
                then store ?p (?nr - 1) x00 else ?p] =>
      change (if (1 <=? nr) && Byte.eqb (load p (nr - 1)) x0a
              then store p (nr - 1) x00 else p) with (chomp p nr)
  end.

(** Two entries that agree up to their first NUL byte, each without its
    trailing newline, whether the input ends with one or not, are accepted:
    no mismatch is reported, the run goes on to the random device, and any
    derivation is given the first entry, without its newline and up to its
    first NUL byte, as the password. *)
Theorem matching_entries_are_accepted (e : env) (first second : list byte) :
  reads (trace_of e) = [Some first; Some second] ->
  cstr (strip_newline first) = cstr (strip_newline second) ->
  ~ In mismatch_message (written F_stderr (trace_of e)) /\
  In (EvFopen F_random (e_random_opens e)) (trace_of e) /\
  Forall (fun ev => match ev with
                    | EvPbkdf2 password _ _ _ _ => password = cstr (strip_newline first)
                    | _ => True
                    end) (trace_of e).
Proof.
  start_run e.
  all: all_paths.
  all: intros ->; cbn.
  all: try discriminate.
  all: intros H Hsame; injection H as <- <-.
  all: try match goal with
       | Hcmp : (strcmp _ _ =? 0) = false |- _ =>
           exfalso; apply Z.eqb_neq in Hcmp; apply Hcmp; apply strcmp_zero;
           fold_chomp_goal; rewrite !cstr_chomp; exact Hsame
       end.
  all: split; [not_written |].
  all: split; [repeat (first [left; reflexivity | right]) |].
  all: repeat (constructor; [try exact I |]); try constructor.
  all: fold_chomp_goal; rewrite firstn_strlen, cstr_chomp; reflexivity.
Qed.

Lemma matching_entries_are_accepted_witness :
  reads (trace_of env_repeated_option) =
    [Some (bytes ("hunter2" +++ nl)); Some (bytes "hunter2")] /\
  ~ In mismatch_message (written F_stderr (trace_of env_repeated_option)) /\
  In (EvFopen F_random true) (trace_of env_repeated_option) /\
  Forall (fun ev => match ev with
                    | EvPbkdf2 password _ _ _ _ => password = bytes "hunter2"
                    | _ => True
                    end) (trace_of env_repeated_option).
Proof.
  split; [reflexivity |].
  apply (matching_entries_are_accepted env_repeated_option
           (bytes ("hunter2" +++ nl)) (bytes "hunter2")); reflexivity.
Defined.

(** ** The salt *)

(** Whenever the derivation is called, the random device was read exactly
    once before, for as many bytes as the salt is long, and the salt passed
    is the bytes that read delivered. *)
Theorem salt_is_what_was_read
    (e : env) (password salt : list byte) (c buflen err : Z) :
  derivations (trace_of e) = [EvPbkdf2 password salt c buflen err] ->
  freads (trace_of e) = [EvFread F_random (Z.of_nat (length salt)) salt] /\
  salt = firstn (length salt) (e_random e).
Proof.
  start_run e.
  all: all_paths.
  all: intros ->; cbn.
  all: intros Hcall; try discriminate Hcall.
  all: injection Hcall as <- <- <- <- <-.
  all: match goal with
       | Hfull : (Z.of_nat _ =? _) = true |- _ => apply Z.eqb_eq in Hfull
       end.
  all: rewrite firstn_overwrite by lia.
  all: match goal with
       | Hfull : Z.of_nat (length ?data) = ?n |- _ =>
           rewrite Hfull;
           replace (length data) with (Z.to_nat n) by lia
       end.
  all: split; reflexivity.
Qed.

Lemma salt_is_what_was_read_witness :
  freads (trace_of env_repeated_option) = [EvFread F_random 2 [x10; x20]] /\
  [x10; x20] = firstn 2 (e_random env_repeated_option).
Proof.
  apply (salt_is_what_was_read env_repeated_option (bytes "hunter2") [x10; x20] 10000 3 0).
  reflexivity.
Defined.

(** ** Wiping *)

(** When no line read contains a NUL byte, a password block that is freed
    holds zero bytes where [getline] had put the line and its NUL, on
    whichever path that happens; the rest of the block, which [getline] did
    not write, is as it was allocated: [memset (p, 0, strlen (p))] ends
    before it. *)
Theorem passwords_are_wiped
    (e : env) (first : list byte) (later : list (option (list byte))) :
  reads (trace_of e) = Some first :: later ->
  forallb nul_free (reads (trace_of e)) = true ->
  Forall (fun ev => match ev with
                    | EvFree Pass1 content =>
                        content =
                        repeat x00 (S (length first)) ++ room e Pass1 (length first)
                    | EvFree Pass2 content =>
                        exists second,
                          later = [Some second] /\
                          content =
                          repeat x00 (S (length second)) ++ room e Pass2 (length second)
                    | _ => True
                    end) (trace_of e).
Proof.
  start_run e.
  all: all_paths.
  all: intros ->; cbn.
  all: intros Hreads; try discriminate Hreads.
  all: injection Hreads as <- <-.
  all: rewrite ?andb_true_r.
  all: intros Hfree.
  all: try (apply andb_true_iff in Hfree as [Hfree1 Hfree2]).
  all: repeat (constructor; [try exact I |]); try constructor.
  all: try (eexists; split; [reflexivity |]).
  all: fold_chomp_goal.
  all: first [apply (wiped_entry _ _ Hfree1) | apply (wiped_entry _ _ Hfree2)
             | apply (wiped_entry _ _ Hfree)].
Qed.

Lemma passwords_are_wiped_witness :
  reads (trace_of env_derivation_fails) =
    [Some (bytes ("hunter2" +++ nl)); Some (bytes ("hunter2" +++ nl))] /\
  Forall (fun ev => match ev with
                    | EvFree Pass1 content | EvFree Pass2 content =>
                        content = repeat x00 9 ++ [x7f; x7f; x7f]
                    | _ => True
                    end) (trace_of env_derivation_fails).
Proof.
  split; [reflexivity |].
  assert (Hwiped := passwords_are_wiped env_derivation_fails
                      (bytes ("hunter2" +++ nl)) [Some (bytes ("hunter2" +++ nl))]
                      eq_refl eq_refl).
  rewrite Forall_forall in Hwiped. apply Forall_forall. intros ev Hin.
  specialize (Hwiped ev Hin).
  destruct ev as [| | [] content | | | | | | |]; try exact I.
  - exact Hwiped.
  - destruct Hwiped as (second & Hsecond & Hcontent).
    injection Hsecond as <-. exact Hcontent.
Defined.

(** On a run that exits with status 0, the key, the salt and both digit
    blocks hold zero bytes only when they are freed. *)
Theorem success_wipes_every_block (e : env) :
  status_of e = Exited 0 ->
  Forall (fun ev => match ev with
                    | EvFree Buf content | EvFree Salt content
                    | EvFree Bufhex content | EvFree Salthex content =>
                        forallb is_nul content = true
                    | _ => True
                    end) (trace_of e).
Proof.
  start_run e.
  all: all_paths.
  all: intros ->; cbn.
  all: intros Hstatus; try discriminate Hstatus.
  all: try (repeat constructor; fail).
  all: match goal with
       | Hfull : (Z.of_nat _ =? _) = true |- _ => apply Z.eqb_eq in Hfull
       end.
  all: repeat match goal with
       | Hnone : hexify ?b ?n = Some _ |- _ =>
           lazymatch goal with
           | _ : (n <= length b)%nat |- _ => fail
           | _ => assert (n <= length b)%nat
                    by (rewrite overwrite_length, ?length_firstn, length_map, length_seq; lia)
           end
       end.
  all: repeat (constructor; [try exact I |]); try constructor.
  all: try (apply memset_covers; rewrite overwrite_length;
            rewrite ?length_firstn, ?length_map, ?length_seq; lia).
  all: eapply wiped_digits; try eassumption;
    rewrite ?length_map, ?length_seq; reflexivity.
Qed.

Lemma success_wipes_every_block_witness :
  status_of env_success = Exited 0 /\
  Forall (fun ev => match ev with
                    | EvFree Buf content | EvFree Salt content
                    | EvFree Bufhex content | EvFree Salthex content =>
                        forallb is_nul content = true
                    | _ => True
                    end) (trace_of env_success).
Proof.
  split; [reflexivity |].
  apply (success_wipes_every_block env_success). reflexivity.
Defined.

(** ** The length of the output *)

(** Once the derivation has answered 0 for a salt shorter than 2^31 bytes,
    the run exits with status 0 exactly when the output length is below
    2^31: from there on the size of the digit block wraps around and
    [hexify] writes past its end. *)
Theorem output_length_limit
    (e : env) (password salt : list byte) (c buflen : Z) :
  derivations (trace_of e) = [EvPbkdf2 password salt c buflen 0] ->
  Z.of_nat (length salt) < 2 ^ 31 ->
  (buflen < 2 ^ 31 -> status_of e = Exited 0) /\
  (2 ^ 31 <= buflen ->
   status_of e = Undefined "hexify writes past the end of its output").
Proof.
  intros Hcall Hsalt. split.
  - intros Hsmall.
    apply (successful_derivation_exits_zero e password salt c buflen Hcall Hsmall Hsalt).
  - revert Hcall Hsalt.
    start_run e.
    all: all_paths.
    all: intros ->; cbn.
    all: intros Hcall; try discriminate Hcall.
    all: injection Hcall as <- <- <- <- ->; intros Hs Hbig.
    all: try match goal with
         | Herr : (0 =? 0) = false |- _ => discriminate Herr
         end.
    all: repeat match goal with
         | Hfull : (Z.of_nat _ =? _) = true |- _ => apply Z.eqb_eq in Hfull
         end.
    all: try reflexivity.
    all: exfalso.
    all: repeat match goal with
         | Hhex : hexify _ _ = Some _ |- _ => apply hexify_some in Hhex
         | Hhex : hexify _ _ = None |- _ => apply hexify_none in Hhex
         | Hhex : Some _ = Some _ |- _ => injection Hhex as Hhex
         | Hfits : (_ <=? _)%nat = true |- _ => apply Nat.leb_le in Hfits
         end.
    all: subst.
    all: repeat match goal with
         | H : context [length (_ ++ _)] |- _ => rewrite length_app in H
         | H : context [length (hex_pairs _)] |- _ => rewrite hex_pairs_length in H
         | H : context [length (overwrite _ _)] |- _ => rewrite overwrite_length in H
         | H : context [length (firstn _ _)] |- _ => rewrite length_firstn in H
         | H : context [length (map _ _)] |- _ => rewrite length_map in H
         | H : context [length (seq _ _)] |- _ => rewrite length_seq in H
         end.
    all: cbn [length] in *.
    all: unfold to_uint in *.
    all: repeat match goal with
         | Hfits : context [Z.to_nat (?z mod ?m)] |- _ =>
             lazymatch goal with
             | _ : 0 <= z mod m < m |- _ => fail
             | _ => pose proof (Z.mod_pos_bound z m ltac:(lia))
             end
         end.
    all: lia.
Qed.

Lemma output_length_limit_witness :
  status_of env_success = Exited 0.
Proof.
  destruct (output_length_limit env_success (bytes "hunter2") [x00; x01; x02; x03] 10000 4)
    as [Hsmall _].
  - reflexivity.
  - reflexivity.
  - apply Hsmall. reflexivity.
Defined.

(** ** The terminal, again *)

Lemma modified_bits (t : termios) (i : Z) :
  0 <= i ->
  Z.testbit (c_lflag (modified t)) i =
  Z.testbit (c_lflag t) i && negb (i =? 0) && negb (i =? 3).
Proof.
  intros Hi. unfold modified, set_lflag. cbn [c_lflag].
  rewrite Z.land_spec. change (Z.lnot (Z.lor ECHO ISIG)) with (Z.lnot 9).
  rewrite Z.lnot_spec by exact Hi.
  rewrite <- andb_assoc. f_equal.
  destruct (Z.eqb_spec i 0) as [-> | H0]; [reflexivity |].
  destruct (Z.eqb_spec i 3) as [-> | H3]; [reflexivity |].
  assert (Hcases : i = 1 \/ i = 2 \/ 4 <= i) by lia.
  destruct Hcases as [-> | [-> | Hbig]]; try reflexivity.
  rewrite (Z.bits_above_log2 9 i); [reflexivity | lia |].
  change (Z.log2 9) with 3. lia.
Qed.

(** The attributes the first [tcsetattr] call installs are those
    [tcgetattr] delivered with the ECHO and ISIG bits of the local flags
    cleared: the other local flags and the input, output and control flags
    are kept. *)
Theorem only_echo_and_isig_are_cleared (e : env) (f : file) (t : termios) (ok : bool) :
  hd_error (tcsetattrs (trace_of e)) = Some (EvTcsetattr f t ok) ->
  c_iflag t = c_iflag (e_termios e) /\
  c_oflag t = c_oflag (e_termios e) /\
  c_cflag t = c_cflag (e_termios e) /\
  forall i, 0 <= i ->
    Z.testbit (c_lflag t) i =
    Z.testbit (c_lflag (e_termios e)) i && negb (i =? 0) && negb (i =? 3).
Proof.
  start_run e.
  all: all_paths.
  all: intros ->; cbn.
  all: try discriminate.
  all: intros H; injection H as <- <- <-.
  all: repeat (split; [reflexivity |]).
  all: apply (modified_bits (e_termios e)).
Qed.

Lemma only_echo_and_isig_are_cleared_witness :
  hd_error (tcsetattrs (trace_of env_success)) =
    Some (EvTcsetattr F_tty
            {| c_iflag := 11522; c_oflag := 5; c_cflag := 191; c_lflag := 35378 |} true) /\
  Z.testbit 35378 3 = Z.testbit (c_lflag sample_termios) 3 && negb (3 =? 0) && negb (3 =? 3).
Proof.
  split; [reflexivity |].
  destruct (only_echo_and_isig_are_cleared env_success F_tty
              {| c_iflag := 11522; c_oflag := 5; c_cflag := 191; c_lflag := 35378 |} true
              eq_refl) as (_ & _ & _ & Hbits).
  apply (Hbits 3). lia.
Defined.

(** When the attributes cannot be read, or the call that modifies them
    fails, [main] makes no further [tcsetattr] call and the terminal keeps
    the attributes it had; the run itself goes on. *)
Theorem unmodified_terminal_is_left_alone (e : env) :
  e_tcgetattr_ok e = false \/ e_tcsetattr_ok e 0%nat = false ->
  final_termios e = e_termios e /\
  (length (tcsetattrs (trace_of e)) <= 1)%nat /\
  Forall (fun ev => match ev with
                    | EvTcsetattr _ _ ok => ok = false
                    | _ => True
                    end) (trace_of e).
Proof.
  start_run e.
  all: all_paths.
  all: intros ->; cbn.
  all: intros [Hget | Hset]; try discriminate.
  all: split; [reflexivity |].
  all: split; [lia |].
  all: repeat constructor.
Qed.

Lemma unmodified_terminal_is_left_alone_witness :
  final_termios env_piped = e_termios env_piped /\
  (length (tcsetattrs (trace_of env_piped)) <= 1)%nat /\
  Forall (fun ev => match ev with
                    | EvTcsetattr _ _ ok => ok = false
                    | _ => True
                    end) (trace_of env_piped).
Proof.
  apply (unmodified_terminal_is_left_alone env_piped). left. reflexivity.
Defined.
